(** * voicy: the transcription delivery pipeline of [src/helpers/voice.js]

    A shallow embedding of the voice handler and the verification of its
    specification.  JavaScript strings are sequences of UTF-16 code units;
    the asynchronous, effectful code is written in a small monad that threads
    the log of calls made to the external collaborators (the chat platform,
    the database, the transcription engine, the reporting sink) and carries
    JavaScript exceptions. *)

From Stdlib Require Import String Ascii.
From Stdlib Require Import List NArith ZArith Bool Lia.
Import ListNotations.

Set Implicit Arguments.

(** ** JavaScript strings and the string operations the handler uses *)

Module Js.

Definition codeunit := N.
Definition jsstring := list codeunit.

(** An ASCII literal as a JavaScript string. *)
Definition str (s : string) : jsstring :=
  map N_of_ascii (list_ascii_of_string s).

(** The one-character string "\n". *)
Definition nl : jsstring := [10%N].

(** Truthiness of a string: [!!v], [text && ...]. *)
Definition truthy (s : jsstring) : bool :=
  match s with
  | [] => false
  | _ :: _ => true
  end.

(** ECMAScript LineTerminator: LF, CR, LS, PS. *)
Definition isLineTerminator (c : codeunit) : bool :=
  ((c =? 10) || (c =? 13) || (c =? 0x2028) || (c =? 0x2029))%N.

(** ECMAScript WhiteSpace: TAB, VT, FF, SP, NBSP, ZWNBSP and category Zs. *)
Definition isWhiteSpace (c : codeunit) : bool :=
  ((c =? 9) || (c =? 11) || (c =? 12) || (c =? 32) || (c =? 0xA0)
   || (c =? 0x1680) || ((0x2000 <=? c) && (c <=? 0x200A))
   || (c =? 0x202F) || (c =? 0x205F) || (c =? 0x3000) || (c =? 0xFEFF))%N.

(** What [String.prototype.trim] strips: white space and line terminators. *)
Definition isTrimmed (c : codeunit) : bool :=
  isWhiteSpace c || isLineTerminator c.

Fixpoint dropWhile (p : codeunit -> bool) (s : jsstring) : jsstring :=
  match s with
  | [] => []
  | c :: s' => if p c then dropWhile p s' else s
  end.

Definition trimStart (s : jsstring) : jsstring := dropWhile isTrimmed s.
Definition trimEnd (s : jsstring) : jsstring := rev (dropWhile isTrimmed (rev s)).

(** [s.trim()] *)
Definition trim (s : jsstring) : jsstring := trimEnd (trimStart s).

(** [l.join(sep)] on an array of strings. *)
Fixpoint join (sep : jsstring) (l : list jsstring) : jsstring :=
  match l with
  | [] => []
  | x :: rest =>
      match rest with
      | [] => x
      | _ :: _ => x ++ sep ++ join sep rest
      end
  end.

(** [l.includes(x)] on an array of numbers. *)
Definition includes (l : list Z) (x : Z) : bool := existsb (Z.eqb x) l.

(** *** Global matching of a bounded character-class repetition

    Both chunkers are of the shape [text.match(/C{1,4000}/g)] for a character
    class [C].  At a start index the greedy quantifier consumes as many
    characters of the class as it can, up to the bound; nothing follows the
    quantifier, so the longest run is the match. *)
Fixpoint greedy (cls : codeunit -> bool) (bound : nat) (s : jsstring)
  : jsstring * jsstring :=
  match bound, s with
  | S bound', c :: s' =>
      if cls c then
        let (m, rest) := greedy cls bound' s' in (c :: m, rest)
      else ([], s)
  | _, _ => ([], s)
  end.

(** The [g] flag: after a match the search resumes at its end; where the
    class does not match at all the start index moves one character on.
    [fuel] bounds the number of start indices that are tried. *)
Fixpoint matchAllFrom (cls : codeunit -> bool) (bound fuel : nat) (s : jsstring)
  : list jsstring :=
  match fuel with
  | O => []
  | S fuel' =>
      match s with
      | [] => []
      | _ :: s' =>
          match greedy cls bound s with
          | ([], _) => matchAllFrom cls bound fuel' s'
          | (m, rest) => m :: matchAllFrom cls bound fuel' rest
          end
      end
  end.

(** All matches, in order.  JavaScript returns [null] rather than an empty
    array when there is no match: the empty list stands for [null]. *)
Definition matchAll (cls : codeunit -> bool) (bound : nat) (s : jsstring)
  : list jsstring :=
  matchAllFrom cls bound (length s) s.

(** The class [[\s\S]]: every code unit. *)
Definition anyChar (c : codeunit) : bool := true.

(** The class [.] (no [s] flag): every code unit but the line terminators. *)
Definition dot (c : codeunit) : bool := negb (isLineTerminator c).

(** [t] is [s] without its surrounding white space: what was cut off on
    either side is white space, and [t] neither starts nor ends with any. *)
Definition starts_clean (s : jsstring) : Prop :=
  match s with
  | [] => True
  | c :: _ => isTrimmed c = false
  end.

Definition Trimmed (s t : jsstring) : Prop :=
  exists pre post,
    s = pre ++ t ++ post
    /\ Forall (fun c => isTrimmed c = true) pre
    /\ Forall (fun c => isTrimmed c = true) post
    /\ starts_clean t
    /\ starts_clean (rev t).

(** [hay] contains [needle] as a contiguous substring. *)
Definition Contains (needle hay : jsstring) : Prop :=
  exists pre post, hay = pre ++ needle ++ post.

(** [s] ends with [suffix]. *)
Definition EndsWith (suffix s : jsstring) : Prop :=
  exists pre, s = pre ++ suffix.

End Js.

Import Js.

(** ** The data the handler works on *)

Module Voice.

(** A thrown JavaScript value: a [TypeError] raised by the runtime (a property
    read on [undefined] or [null]) or the failure of an external collaborator,
    whose [message] may be absent. *)
Inductive JsError :=
| TypeError
| Failure (message : option jsstring).

(** [error.message], when it is a string. *)
Definition error_message (e : JsError) : option jsstring :=
  match e with
  | TypeError => Some (str "Cannot read properties of undefined")
  | Failure m => m
  end.

(** [message.voice], [message.document], ...: the attachment. *)
Record Attachment := {
  file_id : jsstring;
  file_size : option Z
}.

Record Message := {
  message_id : Z;
  msg_chat_id : Z;                     (* msg.chat.id *)
  voice : option Attachment;
  document : option Attachment;
  audio : option Attachment;
  video_note : option Attachment
}.

(** The chat document returned by [findChat]. *)
Record Chat := {
  id : Z;
  engine : jsstring;
  googleLanguage : jsstring;
  witLanguage : jsstring;
  adminLocked : bool;
  silent : bool;
  filesBanned : bool;
  googleSetupMessageId : option Z;
  googleKey : option jsstring;
  language : jsstring;
  timecodesEnabled : bool
}.

(** The result of [_.pick(chat, [...])] in [sanitizeChat]. *)
Record SanitizedChat := {
  s_id : Z;
  s_engine : jsstring;
  s_googleLanguage : jsstring;
  s_witLanguage : jsstring;
  s_adminLocked : bool;
  s_silent : bool;
  s_filesBanned : bool;
  s_googleSetupMessageId : option Z;
  s_googleKey : option jsstring;
  s_language : jsstring
}.

(** The request context: [ctx.chat.id], [ctx.message],
    [ctx.update.channel_post] and the localisation function [ctx.i18n.t]. *)
Record Ctx := {
  ctx_chat_id : Z;
  ctx_message : option Message;
  ctx_channel_post : option Message;
  i18n_t : jsstring -> jsstring
}.

(** A transcript segment [t]: [t[0]] is the timecode label, [t[1]] the text. *)
Definition Segment := (jsstring * jsstring)%type.

(** What [urlToText] resolves to. *)
Record Transcription := {
  textWithTimecodes : list Segment;
  duration : Z
}.

(** What [ctx.telegram.getFile] resolves to. *)
Record FileData := { file_path : jsstring }.

(** The options object passed to the platform's send and edit calls. *)
Record Options := {
  parse_mode : option jsstring;
  disable_web_page_preview : option bool;
  reply_to_message_id : option Z
}.

(** One call to an external collaborator, with its arguments. *)
Inductive Event :=
| EvFindChat (chatId : Z)
| EvGetFile (fileId : jsstring)
| EvFileUrl (path : jsstring)
| EvReplyWithMarkdown (text : jsstring) (options : Options)
| EvReplyWithChatAction (action : jsstring)
| EvUrlToText (url : jsstring) (chat : SanitizedChat)
| EvEditMessageText (chatId messageId : Z) (text : jsstring) (options : Options)
| EvSendMessage (chatId : Z) (text : jsstring) (options : Options)
| EvReply (text : jsstring) (options : Options)
| EvAddVoice (url text : jsstring) (chat : Chat) (duration : Z)
             (segments : list Segment) (fileId : jsstring)
| EvReport (err : JsError) (tag : jsstring)
| EvConsoleInfo.

(** The external collaborators.  Each call is answered from the log of calls
    made so far (the call itself is its last entry), so that every
    combination of successes and failures is some world. *)
Record World := {
  w_findChat : list Event -> JsError + Chat;
  w_getFile : list Event -> JsError + FileData;
  w_fileUrl : list Event -> JsError + jsstring;
  w_replyWithMarkdown : list Event -> JsError + Message;
  w_replyWithChatAction : list Event -> JsError + unit;
  w_urlToText : list Event -> JsError + Transcription;
  w_editMessageText : list Event -> JsError + unit;
  w_sendMessage : list Event -> JsError + Message;
  w_reply : list Event -> JsError + Message;
  w_addVoice : list Event -> JsError + unit;
  w_isRuChat : Chat -> bool
}.

(** ** The monad of the handler

    The state is the log of calls and the rejections of promises nobody
    awaits; a computation ends in a value or in a thrown error. *)
Record State := {
  trace : list Event;
  unhandled : list JsError
}.

Definition M (A : Type) : Type := World -> State -> State * (JsError + A).

Definition ret {A} (a : A) : M A := fun _ st => (st, inr a).

Definition bind {A B} (m : M A) (k : A -> M B) : M B :=
  fun w st =>
    match m w st with
    | (st', inl e) => (st', inl e)
    | (st', inr a) => k a w st'
    end.

Definition throw {A} (e : JsError) : M A := fun _ st => (st, inl e).

Declare Scope js_scope.
Delimit Scope js_scope with js.
Notation "x <- c ;; k" := (bind c (fun x => k))
  (at level 61, c at next level, right associativity) : js_scope.
Notation "c ;; k" := (bind c (fun _ => k))
  (at level 61, right associativity) : js_scope.
Local Open Scope js_scope.

(** An awaited call to a collaborator: logged, then answered by the world. *)
Definition call {A} (e : Event) (answer : World -> list Event -> JsError + A)
  : M A :=
  fun w st =>
    let log := trace st ++ [e] in
    ({| trace := log; unhandled := unhandled st |}, answer w log).

(** [try { body } catch (err) { handler }] *)
Definition try_catch {A} (body : M A) (handler : JsError -> M A) : M A :=
  fun w st =>
    match body w st with
    | (st', inl e) => handler e w st'
    | (st', inr a) => (st', inr a)
    end.

(** [try { body } catch (err) { handler } finally { finalizer }]: the
    finalizer always runs; if it throws, its error replaces the outcome. *)
Definition try_catch_finally {A} (body : M A) (handler : JsError -> M A)
  (finalizer : M unit) : M A :=
  fun w st =>
    let (st1, r) := try_catch body handler w st in
    match finalizer w st1 with
    | (st2, inl e) => (st2, inl e)
    | (st2, inr _) => (st2, r)
    end.

(** A call to an async function whose promise is neither awaited nor given a
    rejection handler: the caller goes on, and a rejection stays unhandled. *)
Definition not_awaited {A} (m : M A) : M unit :=
  fun w st =>
    match m w st with
    | (st', inl e) =>
        ({| trace := trace st'; unhandled := unhandled st' ++ [e] |}, inr tt)
    | (st', inr _) => (st', inr tt)
    end.

(** [for (const x of l) { await body(x) }] *)
Fixpoint for_of {A} (l : list A) (body : A -> M unit) : M unit :=
  match l with
  | [] => ret tt
  | x :: rest => body x ;; for_of rest body
  end.

(** Running a computation from the empty log. *)
Definition initial : State := {| trace := []; unhandled := [] |}.
Definition run {A} (w : World) (m : M A) : State * (JsError + A) := m w initial.

(** ** The external collaborators as calls *)

Definition findChat (chatId : Z) : M Chat :=
  call (EvFindChat chatId) w_findChat.
Definition getFile (fileId : jsstring) : M FileData :=
  call (EvGetFile fileId) w_getFile.
Definition fileUrl (path : jsstring) : M jsstring :=
  call (EvFileUrl path) w_fileUrl.
Definition replyWithMarkdown (text : jsstring) (options : Options) : M Message :=
  call (EvReplyWithMarkdown text options) w_replyWithMarkdown.
Definition replyWithChatAction (action : jsstring) : M unit :=
  call (EvReplyWithChatAction action) w_replyWithChatAction.
Definition urlToText (url : jsstring) (chat : SanitizedChat) : M Transcription :=
  call (EvUrlToText url chat) w_urlToText.
Definition editMessageText (chatId messageId : Z) (text : jsstring)
  (options : Options) : M unit :=
  call (EvEditMessageText chatId messageId text options) w_editMessageText.
Definition sendMessage (chatId : Z) (text : jsstring) (options : Options)
  : M Message :=
  call (EvSendMessage chatId text options) w_sendMessage.
Definition reply (text : jsstring) (options : Options) : M Message :=
  call (EvReply text options) w_reply.
Definition addVoice (url text : jsstring) (chat : Chat) (duration : Z)
  (segments : list Segment) (fileId : jsstring) : M unit :=
  call (EvAddVoice url text chat duration segments fileId) w_addVoice.

(** Modelled from the spec: [report] of [./report] is not part of the shown
    source; the reporting sink is "fire-and-forget, never throws".  It logs
    the error with its phase tag. *)
Definition report (ctx : Ctx) (err : JsError) (tag : jsstring) : M unit :=
  fun _ st =>
    ({| trace := trace st ++ [EvReport err tag]; unhandled := unhandled st |},
     inr tt).

(** Modelled from the spec: [isRuChat] of [./isRuChat] is not part of the
    shown source; it is "a single designated Russian-chat predicate", a pure
    classification of the chat.  The handler obtains it from the world. *)
Definition imported_isRuChat : M (Chat -> bool) :=
  fun w st => (st, inr (w_isRuChat w)).

(** The timing line of the [finally] blocks, [console.info(...)]; the
    elapsed wall-clock time it prints is not modelled. *)
Definition console_info : M unit :=
  fun _ st =>
    ({| trace := trace st ++ [EvConsoleInfo]; unhandled := unhandled st |},
     inr tt).

(** ** The handler *)

Definition promoExceptions : list Z :=
  [ -1001122726482; -1001140130398; -1001275987479; -1001128503769;
    -1001179199008; -1001260542215;
    -471839945; -499632766; -428387998; -483383014; -424820225;
    -453221176; -465403737 ]%Z.

Inductive PromoKey := en | ru.

Definition promoTexts (k : PromoKey) : jsstring :=
  match k with
  | en => str "Powered by [Todorant](https://todorant.com/?ref=voicy)"
  | ru => str "Powered by [Todorant](https://todorant.com/?ref=voicy)"
  end.

(** [o.k] is truthy, for an optional string. *)
Definition truthy_opt (o : option jsstring) : bool :=
  match o with
  | Some s => truthy s
  | None => false
  end.

(** [s === 'google'] *)
Definition is_google (s : jsstring) : bool :=
  if list_eq_dec N.eq_dec s (str "google") then true else false.

(** [chat.engine === 'google' && !chat.googleKey] *)
Definition missing_google_key (chat : Chat) : bool :=
  is_google (engine chat) && negb (truthy_opt (googleKey chat)).

Definition languageFromChat (chat : Chat) : jsstring :=
  if is_google (engine chat) then googleLanguage chat else witLanguage chat.

Definition sanitizeChat (chat : Chat) : SanitizedChat :=
  {| s_id := id chat;
     s_engine := engine chat;
     s_googleLanguage := googleLanguage chat;
     s_witLanguage := witLanguage chat;
     s_adminLocked := adminLocked chat;
     s_silent := silent chat;
     s_filesBanned := filesBanned chat;
     s_googleSetupMessageId := googleSetupMessageId chat;
     s_googleKey := googleKey chat;
     s_language := language chat |}.

(** [ctx.message || ctx.update.channel_post] *)
Definition message_of (ctx : Ctx) : option Message :=
  match ctx_message ctx with
  | Some m => Some m
  | None => ctx_channel_post ctx
  end.

(** [message.voice || message.document || message.audio || message.video_note] *)
Definition voice_of (message : Message) : option Attachment :=
  match voice message with
  | Some v => Some v
  | None =>
      match document message with
      | Some v => Some v
      | None =>
          match audio message with
          | Some v => Some v
          | None => video_note message
          end
      end
  end.

(** [voice.file_size && voice.file_size >= 19 * 1024 * 1024] *)
Definition too_large (v : Attachment) : bool :=
  match file_size v with
  | Some n => negb (n =? 0)%Z && (19 * 1024 * 1024 <=? n)%Z
  | None => false
  end.

(** The text with timecodes:
    [textWithTimecodes.map((t) => `${t[0]}:\n${t[1]}`).join('\n')] *)
Definition timecodedText (segments : list Segment) : jsstring :=
  join nl (map (fun t => fst t ++ str ":" ++ nl ++ snd t) segments).

(** The text without timecodes:
    [textWithTimecodes.map((t) => t[1].trim()).filter((v) => !!v).join('. ')] *)
Definition plainText (segments : list Segment) : jsstring :=
  join (str ". ") (filter truthy (map (fun t => trim (snd t)) segments)).

(** [chat.timecodesEnabled ? ... : ...], the text handed to delivery. *)
Definition formatText (chat : Chat) (segments : list Segment) : jsstring :=
  if timecodesEnabled chat then timecodedText segments else plainText segments.

(** The "Add promo" step, the same statement in both delivery functions:
    [if (text && !promoExceptions.includes(ctx.chat.id)) {
       const promoText = promoTexts[isRuChat(chat) ? 'ru' : 'en']
       text = `${text}\n${promoText}` }] *)
Definition addPromo (isRuChat : Chat -> bool) (ctx : Ctx) (chat : Chat)
  (text : jsstring) : jsstring :=
  if truthy text && negb (includes promoExceptions (ctx_chat_id ctx)) then
    let promoText := promoTexts (if isRuChat chat then ru else en) in
    text ++ nl ++ promoText
  else text.

Definition markdown_options : Options :=
  {| parse_mode := Some (str "Markdown");
     disable_web_page_preview := Some true;
     reply_to_message_id := None |}.

(** [{ ...options, reply_to_message_id: n }] *)
Definition replying_to (options : Options) (n : Z) : Options :=
  {| parse_mode := parse_mode options;
     disable_web_page_preview := disable_web_page_preview options;
     reply_to_message_id := Some n |}.

(** [text || fallback] *)
Definition or_else (text fallback : jsstring) : jsstring :=
  if truthy text then text else fallback.

Definition updateMessagewithTranscription (ctx : Ctx) (msg : Message)
  (text : jsstring) (chat : Chat) : M unit :=
  let options := markdown_options in
  isRuChat <- imported_isRuChat ;;
  let text := addPromo isRuChat ctx chat text in
  if negb (truthy text) || (length text <=? 4000) then
    editMessageText (msg_chat_id msg) (message_id msg)
      (or_else text (i18n_t ctx (str "speak_clearly"))) options
  else
    match matchAll anyChar 4000 text with
    | [] => throw TypeError               (* chunks is null *)
    | first :: chunks =>
        editMessageText (msg_chat_id msg) (message_id msg) first options ;;
        for_of chunks (fun chunk =>
          reply chunk (replying_to options (message_id msg)) ;; ret tt)
    end.

Definition sendMessageWithTranscription (ctx : Ctx) (text : jsstring)
  (chat : Chat) : M unit :=
  match message_of ctx with
  | None => throw TypeError               (* message.message_id *)
  | Some message =>
      let options := replying_to markdown_options (message_id message) in
      isRuChat <- imported_isRuChat ;;
      let text := addPromo isRuChat ctx chat text in
      if truthy text && (length text <? 4000) then
        sendMessage (id chat) text options ;; ret tt
      else if truthy text then
        match matchAll dot 4000 text with
        | [] => throw TypeError           (* chunks is null *)
        | first :: chunks =>
            sentMessage <- sendMessage (id chat) first options ;;
            for_of chunks (fun chunk =>
              reply chunk (replying_to options (message_id sentMessage)) ;;
              ret tt)
        end
      else ret tt
  end.

Definition updateMessagewithError (ctx : Ctx) (msg : Message) (chat : Chat)
  (error : JsError) : M unit :=
  try_catch
    (let text := i18n_t ctx (str "error") in
     let text :=
       if is_google (engine chat) then
         text ++ nl ++ nl ++ str "``` "
              ++ (if truthy_opt (error_message error)
                  then match error_message error with
                       | Some m => m
                       | None => []
                       end
                  else str "Unknown error")
              ++ str "```"
       else text in
     editMessageText (msg_chat_id msg) (message_id msg) text
       {| parse_mode := Some (str "Markdown");
          disable_web_page_preview := None;
          reply_to_message_id := None |})
    (fun err => report ctx err (str "updateMessagewithError")).

Definition sendLargeFileError (ctx : Ctx) (message : Message) : M Message :=
  replyWithMarkdown (i18n_t ctx (str "error_twenty"))
    {| parse_mode := Some (str "Markdown");
       disable_web_page_preview := None;
       reply_to_message_id := Some (message_id message) |}.

Definition sendVoiceRecognitionMessage (ctx : Ctx) (message : Message)
  : M Message :=
  replyWithMarkdown (i18n_t ctx (str "initiated"))
    {| parse_mode := None;
       disable_web_page_preview := None;
       reply_to_message_id := Some (message_id message) |}.

(** The call to [updateMessagewithTranscription] is not awaited and its
    promise is dropped. *)
Definition updateWithGoogleKeyError (ctx : Ctx) (sentMessage : Message)
  (chat : Chat) : M unit :=
  not_awaited
    (updateMessagewithTranscription ctx sentMessage
       (i18n_t ctx (str "google_error_creds")) chat).

Definition sendTranscription (ctx : Ctx) (url : jsstring) (chat : Chat)
  (fileId : jsstring) : M unit :=
  match message_of ctx with
  | None => throw TypeError               (* message.message_id *)
  | Some message =>
      sentMessage <- sendVoiceRecognitionMessage ctx message ;;
      let lan := languageFromChat chat in
      if missing_google_key chat then
        updateWithGoogleKeyError ctx sentMessage chat
      else
        try_catch_finally
          (r <- urlToText url (sanitizeChat chat) ;;
           let text := formatText chat (textWithTimecodes r) in
           updateMessagewithTranscription ctx sentMessage text chat ;;
           addVoice url (plainText (textWithTimecodes r)) chat (duration r)
             (textWithTimecodes r) fileId)
          (fun err =>
             updateMessagewithError ctx sentMessage chat err ;;
             report ctx err (str "sendTranscription"))
          console_info
  end.

Definition sendAction (ctx : Ctx) (url : jsstring) (chat : Chat)
  (fileId : jsstring) : M unit :=
  replyWithChatAction (str "typing") ;;
  let lan := languageFromChat chat in
  if missing_google_key chat then ret tt
  else
    try_catch_finally
      (r <- urlToText url (sanitizeChat chat) ;;
       let text := formatText chat (textWithTimecodes r) in
       sendMessageWithTranscription ctx text chat ;;
       addVoice url (plainText (textWithTimecodes r)) chat (duration r)
         (textWithTimecodes r) fileId)
      (fun err => report ctx err (str "sendTranscription.silent"))
      console_info.

Definition handleMessage (ctx : Ctx) : M unit :=
  try_catch
    (chat <- findChat (ctx_chat_id ctx) ;;
     match message_of ctx with
     | None => throw TypeError            (* message.voice *)
     | Some message =>
         match voice_of message with
         | None => throw TypeError        (* voice.file_size *)
         | Some voice =>
             if too_large voice then
               if negb (silent chat) then
                 sendLargeFileError ctx message ;; ret tt
               else ret tt
             else
               fileData <- getFile (file_id voice) ;;
               voiceUrl <- fileUrl (file_path fileData) ;;
               if silent chat then
                 try_catch (sendAction ctx voiceUrl chat (file_id voice))
                   (fun err => report ctx err (str "sendAction"))
               else
                 try_catch (sendTranscription ctx voiceUrl chat (file_id voice))
                   (fun err => report ctx err (str "sendTranscription"))
         end
     end)
    (fun err => report ctx err (str "handleMessage")).

End Voice.

Import Voice.

(** ** Concrete requests and worlds, used to run the handler *)

Module Sample.

(** A world in which every collaborator succeeds: the engine returns
    [segments], the platform returns [sent] for every message it sends. *)
Definition world (chat : Chat) (segments : list Segment) (sent : Message)
  (ruChat : bool) : World :=
  {| w_findChat := fun _ => inr chat;
     w_getFile := fun _ => inr {| file_path := str "voice/file_7.oga" |};
     w_fileUrl := fun _ => inr (str "https://files/voice/file_7.oga");
     w_replyWithMarkdown := fun _ => inr sent;
     w_replyWithChatAction := fun _ => inr tt;
     w_urlToText := fun _ =>
       inr {| textWithTimecodes := segments; duration := 12 |};
     w_editMessageText := fun _ => inr tt;
     w_sendMessage := fun _ => inr sent;
     w_reply := fun _ => inr sent;
     w_addVoice := fun _ => inr tt;
     w_isRuChat := fun _ => ruChat |}.

(** The same world, except that the platform rejects every edit. *)
Definition world_edit_fails (chat : Chat) (segments : list Segment)
  (sent : Message) (ruChat : bool) : World :=
  {| w_findChat := w_findChat (world chat segments sent ruChat);
     w_getFile := w_getFile (world chat segments sent ruChat);
     w_fileUrl := w_fileUrl (world chat segments sent ruChat);
     w_replyWithMarkdown := w_replyWithMarkdown (world chat segments sent ruChat);
     w_replyWithChatAction :=
       w_replyWithChatAction (world chat segments sent ruChat);
     w_urlToText := w_urlToText (world chat segments sent ruChat);
     w_editMessageText := fun _ =>
       inl (Failure (Some (str "Bad Request: message to edit not found")));
     w_sendMessage := w_sendMessage (world chat segments sent ruChat);
     w_reply := w_reply (world chat segments sent ruChat);
     w_addVoice := w_addVoice (world chat segments sent ruChat);
     w_isRuChat := w_isRuChat (world chat segments sent ruChat) |}.

(** A chat document; [exempt_id] is in [promoExceptions], [plain_id] is not. *)
Definition exempt_id : Z := (-471839945)%Z.
Definition plain_id : Z := 4242%Z.

Definition chat (chatId : Z) (engineName : string) (key : option jsstring)
  (isSilent withTimecodes : bool) : Chat :=
  {| id := chatId;
     engine := str engineName;
     googleLanguage := str "en-US";
     witLanguage := str "English";
     adminLocked := false;
     silent := isSilent;
     filesBanned := false;
     googleSetupMessageId := None;
     googleKey := key;
     language := str "en";
     timecodesEnabled := withTimecodes |}.

(** A voice message of the given size, and the bot's own placeholder. *)
Definition voice_message (chatId : Z) (size : option Z) : Message :=
  {| message_id := 100;
     msg_chat_id := chatId;
     voice := Some {| file_id := str "AwADBAAD"; file_size := size |};
     document := None;
     audio := None;
     video_note := None |}.

Definition placeholder (chatId : Z) : Message :=
  {| message_id := 101;
     msg_chat_id := chatId;
     voice := None;
     document := None;
     audio := None;
     video_note := None |}.

(** A localisation table: the text of a key is the key in angle brackets. *)
Definition t (key : jsstring) : jsstring := str "<" ++ key ++ str ">".

Definition ctx (chatId : Z) (size : option Z) : Ctx :=
  {| ctx_chat_id := chatId;
     ctx_message := Some (voice_message chatId size);
     ctx_channel_post := None;
     i18n_t := t |}.

(** The letter [a], [n] times. *)
Definition letters (n : N) : jsstring := repeat 97%N (N.to_nat n).

End Sample.

(** The requests the theorems are run on. *)
Module Runs.

Definition sent : Message := Sample.placeholder Sample.plain_id.
Definition wit_chat (isSilent withTimecodes : bool) : Chat :=
  Sample.chat Sample.plain_id "wit" None isSilent withTimecodes.
Definition google_chat (isSilent : bool) : Chat :=
  Sample.chat Sample.plain_id "google" None isSilent false.
Definition hello : list Segment :=
  [(str "0:00", str "hello "); (str "0:05", [])].
Definition url : jsstring := str "https://files/voice/file_7.oga".
Definition fileId : jsstring := str "AwADBAAD".
Definition MiB19 : Z := (19 * 1024 * 1024)%Z.

(** A world whose engine fails, and one whose database refuses to store. *)
Definition with_engine (w : World) (answer : JsError + Transcription)
  : World :=
  {| w_findChat := w_findChat w;
     w_getFile := w_getFile w;
     w_fileUrl := w_fileUrl w;
     w_replyWithMarkdown := w_replyWithMarkdown w;
     w_replyWithChatAction := w_replyWithChatAction w;
     w_urlToText := fun _ => answer;
     w_editMessageText := w_editMessageText w;
     w_sendMessage := w_sendMessage w;
     w_reply := w_reply w;
     w_addVoice := w_addVoice w;
     w_isRuChat := w_isRuChat w |}.

Definition with_store (w : World) (answer : JsError + unit) : World :=
  {| w_findChat := w_findChat w;
     w_getFile := w_getFile w;
     w_fileUrl := w_fileUrl w;
     w_replyWithMarkdown := w_replyWithMarkdown w;
     w_replyWithChatAction := w_replyWithChatAction w;
     w_urlToText := w_urlToText w;
     w_editMessageText := w_editMessageText w;
     w_sendMessage := w_sendMessage w;
     w_reply := w_reply w;
     w_addVoice := fun _ => answer;
     w_isRuChat := w_isRuChat w |}.

Definition timed_out : JsError := Failure (Some (str "ETIMEDOUT")).

Definition engine_down (chat : Chat) : World :=
  with_engine (Sample.world chat [] sent false) (inl timed_out).

Definition store_down (chat : Chat) : World :=
  with_store (Sample.world chat hello sent false) (inl timed_out).

(** A world in which the chat cannot be written to at first. *)
Definition feedback_down (chat : Chat) : World :=
  {| w_findChat := fun _ => inr chat;
     w_getFile := w_getFile (Sample.world chat [] sent false);
     w_fileUrl := w_fileUrl (Sample.world chat [] sent false);
     w_replyWithMarkdown := fun _ => inl timed_out;
     w_replyWithChatAction := fun _ => inl timed_out;
     w_urlToText := w_urlToText (Sample.world chat [] sent false);
     w_editMessageText := w_editMessageText (Sample.world chat [] sent false);
     w_sendMessage := w_sendMessage (Sample.world chat [] sent false);
     w_reply := w_reply (Sample.world chat [] sent false);
     w_addVoice := w_addVoice (Sample.world chat [] sent false);
     w_isRuChat := fun _ => false |}.

Definition hello_answer : Transcription :=
  {| textWithTimecodes := hello; duration := 12 |}.

End Runs.

(** The placeholder announcing that recognition has started. *)
Definition placeholder_event (ctx : Ctx) (message : Message) : Event :=
  EvReplyWithMarkdown (i18n_t ctx (str "initiated"))
    {| parse_mode := None;
       disable_web_page_preview := None;
       reply_to_message_id := Some (message_id message) |}.

(** ** Vocabulary for statements about the log of calls *)

Module Log.

(** A kind of call, as a decidable set of events. *)
Definition Kind := Event -> bool.

(** Running [m] in world [w] from state [st] only appends calls of kind [k]
    to the log. *)
Definition EmitsAt {A} (k : Kind) (m : M A) (w : World) (st : State) : Prop :=
  exists new,
    trace (fst (m w st)) = trace st ++ new
    /\ Forall (fun e => k e = true) new.

(** [m] only ever makes calls of kind [k]. *)
Definition Emits {A} (k : Kind) (m : M A) : Prop :=
  forall w st, EmitsAt k m w st.

Definition is_engine_call : Kind :=
  fun e => match e with EvUrlToText _ _ => true | _ => false end.

Definition is_record : Kind :=
  fun e => match e with EvAddVoice _ _ _ _ _ _ => true | _ => false end.

Definition is_report : Kind :=
  fun e => match e with EvReport _ _ => true | _ => false end.

(** What reaches the chat as a message: a reply, a sent message, an edit. *)
Definition is_message : Kind :=
  fun e =>
    match e with
    | EvReplyWithMarkdown _ _ | EvEditMessageText _ _ _ _
    | EvSendMessage _ _ _ | EvReply _ _ => true
    | _ => false
    end.

(** The calls of delivery in interactive mode: edits and replies. *)
Definition edit_or_reply : Kind :=
  fun e =>
    match e with
    | EvEditMessageText _ _ _ _ | EvReply _ _ => true
    | _ => false
    end.

(** The calls of delivery in silent mode: sent messages and replies. *)
Definition send_or_reply : Kind :=
  fun e =>
    match e with
    | EvSendMessage _ _ _ | EvReply _ _ => true
    | _ => false
    end.

(** Everything a request to a silent chat may call: no placeholder, no
    notice, no edit. *)
Definition silent_mode_call : Kind :=
  fun e =>
    match e with
    | EvReplyWithMarkdown _ _ | EvEditMessageText _ _ _ _ => false
    | _ => true
    end.

(** Everything a request to an interactive chat may call: no typing action
    and no [sendMessage]. *)
Definition interactive_mode_call : Kind :=
  fun e =>
    match e with
    | EvReplyWithChatAction _ | EvSendMessage _ _ _ => false
    | _ => true
    end.

(** Everything but an engine call. *)
Definition not_engine_call : Kind := fun e => negb (is_engine_call e).

(** Everything but a message to the chat. *)
Definition not_message : Kind := fun e => negb (is_message e).

(** The number of engine calls in a log. *)
Definition engine_calls (log : list Event) : nat :=
  length (filter is_engine_call log).

(** The text of the error notice of [updateMessagewithError]. *)
Definition error_notice (ctx : Ctx) (chat : Chat) (error : JsError)
  : jsstring :=
  if is_google (engine chat) then
    i18n_t ctx (str "error") ++ nl ++ nl ++ str "``` "
    ++ match error_message error with
       | Some (c :: m) => c :: m
       | _ => str "Unknown error"
       end
    ++ str "```"
  else i18n_t ctx (str "error").

Definition error_options : Options :=
  {| parse_mode := Some (str "Markdown");
     disable_web_page_preview := None;
     reply_to_message_id := None |}.

(** The edit that [updateMessagewithError] makes. *)
Definition error_edit (ctx : Ctx) (msg : Message) (chat : Chat)
  (error : JsError) : Event :=
  EvEditMessageText (msg_chat_id msg) (message_id msg)
    (error_notice ctx chat error) error_options.

(** What [updateMessagewithError] adds to a log: the edit and, when the
    platform rejects it, the report of that rejection. *)
Definition error_edit_log (w : World) (ctx : Ctx) (msg : Message) (chat : Chat)
  (error : JsError) (log : list Event) : list Event :=
  error_edit ctx msg chat error
  :: match w_editMessageText w (log ++ [error_edit ctx msg chat error]) with
     | inl err => [EvReport err (str "updateMessagewithError")]
     | inr _ => []
     end.

(** The text a call puts into the chat: that of a reply, a sent message or
    an edit, and nothing for any other call. *)
Definition message_text (e : Event) : jsstring :=
  match e with
  | EvReplyWithMarkdown text _ => text
  | EvEditMessageText _ _ text _ => text
  | EvSendMessage _ text _ => text
  | EvReply text _ => text
  | _ => []
  end.

(** The texts of the messages of a log, in order, as one text. *)
Definition delivered_text (log : list Event) : jsstring :=
  concat (map message_text log).

(** The other calls: those outside the kind. *)
Definition others (k : Kind) : Kind := fun e => negb (k e).

(** A log with at most one call of kind [k]; if there is one, it satisfies
    [C]. *)
Definition AtMostOnce (k : Kind) (C : Event -> Prop) (log : list Event)
  : Prop :=
  Forall (fun e => others k e = true) log
  \/ exists before e after,
       log = before ++ e :: after
       /\ k e = true /\ C e
       /\ Forall (fun e => others k e = true) before
       /\ Forall (fun e => others k e = true) after.

(** Running [m] appends such a log. *)
Definition OnceAt {A} (k : Kind) (C : Event -> Prop) (m : M A) (w : World)
  (st : State) : Prop :=
  exists new,
    trace (fst (m w st)) = trace st ++ new /\ AtMostOnce k C new.

(** A log [new], recorded after the log [before_all], with at most one call
    of kind [k]; if there is one, [C] holds of the whole log that precedes
    it and of the call. *)
Definition OnceIn (k : Kind) (C : list Event -> Event -> Prop)
  (before_all new : list Event) : Prop :=
  Forall (fun e => others k e = true) new
  \/ exists before e after,
       new = before ++ e :: after
       /\ k e = true /\ C (before_all ++ before) e
       /\ Forall (fun e => others k e = true) before
       /\ Forall (fun e => others k e = true) after.

(** Running [m] appends such a log. *)
Definition OnceFrom {A} (k : Kind) (C : list Event -> Event -> Prop)
  (m : M A) (w : World) (st : State) : Prop :=
  exists new,
    trace (fst (m w st)) = trace st ++ new /\ OnceIn k C (trace st) new.

(** Where a record comes from: the log before it holds an engine call for
    the record's URL and chat, the world answered that very call with [r],
    and the record stores the segments and the duration of [r]. *)
Definition stored_from_engine (w : World) (ctx : Ctx) (before : list Event)
  (e : Event) : Prop :=
  exists url chat fileId earlier between r,
    e = EvAddVoice url (plainText (textWithTimecodes r)) chat (duration r)
          (textWithTimecodes r) fileId
    /\ before = earlier ++ EvUrlToText url (sanitizeChat chat) :: between
    /\ w_urlToText w (earlier ++ [EvUrlToText url (sanitizeChat chat)]) = inr r
    /\ w_findChat w [EvFindChat (ctx_chat_id ctx)] = inr chat.

(** Running [m] leaves no new rejection unhandled. *)
Definition SettledAt {A} (m : M A) (w : World) (st : State) : Prop :=
  unhandled (fst (m w st)) = unhandled st.

Definition Settled {A} (m : M A) : Prop := forall w st, SettledAt m w st.

(** Running [m] leaves at most one new rejection unhandled, and none unless
    [Q] holds. *)
Definition LeavesAt {A} (Q : Prop) (m : M A) (w : World) (st : State)
  : Prop :=
  unhandled (fst (m w st)) = unhandled st
  \/ (Q /\ exists err, unhandled (fst (m w st)) = unhandled st ++ [err]).

End Log.

(** The pieces of the text without timecodes. *)
Definition pieces (segments : list Segment) : list jsstring :=
  filter truthy (map (fun t => trim (snd t)) segments).

(** * Facts about the string operations *)

Section Matching.

Variable cls : codeunit -> bool.
Variable bound : nat.
Hypothesis bound_pos : 0 < bound.

(** A greedy match is a prefix of the subject, inside the class and within
    the bound. *)
Lemma greedy_split (n : nat) (s : jsstring) :
  s = fst (greedy cls n s) ++ snd (greedy cls n s)
  /\ length (fst (greedy cls n s)) <= n
  /\ Forall (fun c => cls c = true) (fst (greedy cls n s)).
Proof.
  revert s; induction n as [|n IH]; intros [|c s]; simpl;
    try (repeat split; solve [reflexivity | lia | constructor]).
  destruct (cls c) eqn:Hc; simpl;
    try (repeat split; solve [reflexivity | lia | constructor]).
  specialize (IH s). destruct (greedy cls n s) as [m rest]; simpl in *.
  destruct IH as (E & L & F).
  repeat split; [congruence | lia | constructor; assumption].
Qed.

(** On a subject that lies inside the class the match is the first [n]
    characters. *)
Lemma greedy_in_class (n : nat) (s : jsstring) :
  Forall (fun c => cls c = true) s ->
  greedy cls n s = (firstn n s, skipn n s).
Proof.
  revert s; induction n as [|n IH]; intros [|c s] F; simpl; auto.
  inversion F as [|? ? Hc F']; subst. rewrite Hc, (IH s F'). reflexivity.
Qed.

(** Fuel beyond the length of the subject changes nothing. *)
Lemma matchAllFrom_fuel (f1 f2 : nat) (s : jsstring) :
  length s <= f1 -> length s <= f2 ->
  matchAllFrom cls bound f1 s = matchAllFrom cls bound f2 s.
Proof.
  revert f2 s; induction f1 as [|f1 IH]; intros f2 s H1 H2.
  - destruct s; simpl in *; [destruct f2; reflexivity | lia].
  - destruct f2 as [|f2]; [destruct s; simpl in *; [reflexivity | lia]|].
    destruct s as [|c s]; [reflexivity|].
    cbn [matchAllFrom].
    destruct (greedy_split bound (c :: s)) as (E & _ & _).
    destruct (greedy cls bound (c :: s)) as [m rest]; simpl in E.
    destruct m as [|c' m].
    + apply IH; simpl in *; lia.
    + f_equal. apply IH.
      * apply (f_equal (@length _)) in E.
        rewrite length_app in E; simpl in *; lia.
      * apply (f_equal (@length _)) in E.
        rewrite length_app in E; simpl in *; lia.
Qed.

(** Every chunk is non-empty and at most [bound] long, whatever the class. *)
Lemma matchAllFrom_bounded (fuel : nat) (s : jsstring) :
  Forall (fun chunk => 1 <= length chunk <= bound)
         (matchAllFrom cls bound fuel s).
Proof.
  revert s; induction fuel as [|fuel IH]; intros s; simpl; [constructor|].
  destruct s as [|c s]; [constructor|].
  destruct (greedy_split bound (c :: s)) as (_ & L & _).
  destruct (greedy cls bound (c :: s)) as [m rest]; simpl in L.
  destruct m as [|c' m]; [apply IH|].
  constructor; [simpl in *; lia | apply IH].
Qed.

(** The unfolding of a global match on a subject inside the class: the first
    [bound] characters, then the matches of what is left. *)
Lemma matchAll_in_class_cons (c : codeunit) (s : jsstring) :
  Forall (fun c => cls c = true) (c :: s) ->
  matchAll cls bound (c :: s) =
  firstn bound (c :: s) :: matchAll cls bound (skipn bound (c :: s)).
Proof.
  intros F. unfold matchAll. cbn [length matchAllFrom].
  rewrite (greedy_in_class bound F).
  destruct (firstn bound (c :: s)) as [|c' m] eqn:Ef.
  - apply (f_equal (@length _)) in Ef.
    rewrite length_firstn in Ef; simpl in Ef; lia.
  - f_equal. apply matchAllFrom_fuel; [|lia].
    rewrite length_skipn; cbn [length]; lia.
Qed.

(** On a subject inside the class the chunks concatenate to the subject. *)
Lemma matchAll_in_class_concat (s : jsstring) :
  Forall (fun c => cls c = true) s ->
  concat (matchAll cls bound s) = s.
Proof.
  remember (length s) as n eqn:En.
  revert s En; induction n as [n IH] using lt_wf_ind; intros s En F.
  destruct s as [|c s]; [reflexivity|].
  rewrite (matchAll_in_class_cons F). cbn [concat].
  rewrite (IH (length (skipn bound (c :: s)))); try reflexivity.
  - apply firstn_skipn.
  - subst n. rewrite length_skipn. cbn [length]. lia.
  - rewrite <- (firstn_skipn bound (c :: s)) in F.
    apply Forall_app in F. apply F.
Qed.

End Matching.

(** * The chunkers *)

(** The chunker of the interactive path, [text.match(/[\s\S]{1,4000}/g)]:
    contiguous slices of at most 4000 characters whose concatenation is the
    text, and at least one of them when the text is not empty. *)
Lemma edit_chunker_reconstructs (text : jsstring) :
  concat (matchAll anyChar 4000 text) = text
  /\ Forall (fun chunk => length chunk <= 4000) (matchAll anyChar 4000 text)
  /\ (text <> [] -> matchAll anyChar 4000 text <> []).
Proof.
  assert (P : 0 < 4000) by lia.
  assert (F : Forall (fun c => anyChar c = true) text)
    by (apply Forall_forall; reflexivity).
  split; [|split].
  - apply matchAll_in_class_concat; assumption.
  - eapply Forall_impl; [|apply matchAllFrom_bounded; try exact P].
    intros chunk H; apply H.
  - intros Hne E.
    pose proof (@matchAll_in_class_concat anyChar 4000 P text F) as C.
    rewrite E in C; simpl in C. congruence.
Qed.

(** The chunker of the silent path, [text.match(/.{1,4000}/g)], does the
    same on a text without line terminators, and its chunks never exceed
    4000 characters. *)
Lemma send_chunker_without_line_terminators (text : jsstring) :
  Forall (fun chunk => length chunk <= 4000) (matchAll dot 4000 text)
  /\ (Forall (fun c => isLineTerminator c = false) text ->
      concat (matchAll dot 4000 text) = text).
Proof.
  assert (P : 0 < 4000) by lia.
  split.
  - eapply Forall_impl; [|apply matchAllFrom_bounded; try exact P].
    intros chunk H; apply H.
  - intros F. apply matchAll_in_class_concat; [assumption|].
    eapply Forall_impl; [|exact F].
    intros c Hc; unfold dot; rewrite Hc; reflexivity.
Qed.

(** C1 (defect).  In the silent path the chunks do not reconstruct the text:
    the class [.] excludes line terminators.  A transcript of 4000 letters in
    a chat outside the promo-exemption set has the display text "4000
    letters, newline, promo text"; it is sent as the 4000 letters and then
    the promo text, and the newline between them is lost. *)
Theorem send_chunker_drops_line_terminators :
  let chat := Runs.wit_chat true false in
  let ctx := Sample.ctx Sample.plain_id None in
  let w := Sample.world chat [] Runs.sent false in
  let display := addPromo (w_isRuChat w) ctx chat (Sample.letters 4000) in
  let options := replying_to markdown_options 100 in
  display = Sample.letters 4000 ++ nl ++ promoTexts en
  /\ matchAll dot 4000 display = [Sample.letters 4000; promoTexts en]
  /\ concat (matchAll dot 4000 display) <> display
  /\ run w (sendMessageWithTranscription ctx (Sample.letters 4000) chat)
     = ({| trace :=
             [ EvSendMessage Sample.plain_id (Sample.letters 4000) options;
               EvReply (promoTexts en) (replying_to options 101) ];
           unhandled := [] |}, inr tt).
Proof.
  cbv zeta. split; [reflexivity | split; [vm_compute; reflexivity | split]].
  - intros E.
    apply (f_equal (fun l => Nat.eqb (length l) 4054)) in E.
    vm_compute in E. discriminate.
  - vm_compute; reflexivity.
Qed.

(** * The entry point *)

(** C2.  An attachment whose size is known and at least 19 MiB stops the
    handler right after the chat lookup: no file is resolved and no engine is
    called.  An interactive chat gets exactly one "file too large" notice, a
    reply to the original message; a silent chat gets nothing, and nothing is
    reported. *)
Theorem size_gate_stops_the_pipeline (w : World) (ctx : Ctx) (chat : Chat)
  (message : Message) (v : Attachment) (n : Z) :
  w_findChat w [EvFindChat (ctx_chat_id ctx)] = inr chat ->
  message_of ctx = Some message ->
  voice_of message = Some v ->
  file_size v = Some n ->
  (19 * 1024 * 1024 <= n)%Z ->
  let lookup := EvFindChat (ctx_chat_id ctx) in
  let notice :=
    EvReplyWithMarkdown (i18n_t ctx (str "error_twenty"))
      {| parse_mode := Some (str "Markdown");
         disable_web_page_preview := None;
         reply_to_message_id := Some (message_id message) |} in
  run w (handleMessage ctx) =
    if silent chat then
      ({| trace := [lookup]; unhandled := [] |}, inr tt)
    else
      ({| trace :=
            [lookup; notice]
            ++ match w_replyWithMarkdown w [lookup; notice] with
               | inl err => [EvReport err (str "handleMessage")]
               | inr _ => []
               end;
          unhandled := [] |}, inr tt).
Proof.
  intros Hchat Hmsg Hvoice Hsize Hbig lookup notice.
  subst lookup notice.
  assert (Hlarge : too_large v = true).
  { unfold too_large. rewrite Hsize.
    apply andb_true_iff; split.
    - apply negb_true_iff, Z.eqb_neq; lia.
    - apply Z.leb_le; assumption. }
  unfold run, handleMessage, try_catch, bind, findChat, call, initial.
  cbn [trace unhandled app]. rewrite Hchat, Hmsg, Hvoice, Hlarge.
  destruct (silent chat); cbn [negb]; [reflexivity|].
  unfold sendLargeFileError, replyWithMarkdown, call, ret, report.
  cbn [trace unhandled app].
  destruct (w_replyWithMarkdown w _); reflexivity.
Qed.

(** The entry point never throws: whatever the collaborators do, the promise
    of [handleMessage] is fulfilled. *)
Lemma handleMessage_never_throws (w : World) (ctx : Ctx) (st : State) :
  snd (handleMessage ctx w st) = inr tt.
Proof.
  unfold handleMessage, try_catch.
  match goal with
  | |- snd (match ?body with _ => _ end) = _ =>
      destruct body as [st' [err|[]]]
  end; reflexivity.
Qed.

(** C4 (defect).  Not every failure reaches the reporting sink.  With the
    engine ['google'] and no key in an interactive chat, the edit of the
    placeholder is started without being awaited; when the platform rejects
    it, the rejection is left unhandled and nothing is reported. *)
Theorem credential_notice_failure_is_not_reported :
  let chat := Sample.chat Sample.plain_id "google" None false false in
  let sent := Sample.placeholder Sample.plain_id in
  let ctx := Sample.ctx Sample.plain_id (Some 1000%Z) in
  let rejection :=
    Failure (Some (str "Bad Request: message to edit not found")) in
  let final := fst (run (Sample.world_edit_fails chat [] sent false)
                        (handleMessage ctx)) in
  trace final =
    [ EvFindChat Sample.plain_id;
      EvGetFile (str "AwADBAAD");
      EvFileUrl (str "voice/file_7.oga");
      EvReplyWithMarkdown (Sample.t (str "initiated"))
        {| parse_mode := None;
           disable_web_page_preview := None;
           reply_to_message_id := Some 100%Z |};
      EvEditMessageText Sample.plain_id 101
        (Sample.t (str "google_error_creds") ++ nl ++ promoTexts en)
        markdown_options ]
  /\ unhandled final = [rejection]
  /\ (forall err tag, ~ In (EvReport err tag) (trace final)).
Proof.
  cbv zeta. split; [vm_compute; reflexivity | split].
  - vm_compute; reflexivity.
  - intros err tag H. vm_compute in H.
    repeat (destruct H as [H|H]; [discriminate H|]). exact H.
Qed.

(** * Delivery in interactive mode *)

Lemma matchAll_anyChar_unfold (s : jsstring) :
  s <> [] ->
  matchAll anyChar 4000 s
  = firstn 4000 s :: matchAll anyChar 4000 (skipn 4000 s).
Proof.
  destruct s as [|c s]; [congruence|]. intros _.
  apply matchAll_in_class_cons; [lia|].
  apply Forall_forall; reflexivity.
Qed.

Lemma nonempty_of_length (s : jsstring) : 0 < length s -> s <> [].
Proof. destruct s; simpl; [lia | discriminate]. Qed.

(** A display text of at most 4000 characters (the empty one included) is
    delivered by one edit of the placeholder. *)
Lemma update_short (w : World) (ctx : Ctx) (msg : Message) (text : jsstring)
  (chat : Chat) (st : State) :
  length (addPromo (w_isRuChat w) ctx chat text) <= 4000 ->
  updateMessagewithTranscription ctx msg text chat w st
  = editMessageText (msg_chat_id msg) (message_id msg)
      (or_else (addPromo (w_isRuChat w) ctx chat text)
               (i18n_t ctx (str "speak_clearly")))
      markdown_options w st.
Proof.
  intros H.
  cbv beta iota zeta delta [updateMessagewithTranscription bind imported_isRuChat].
  apply Nat.leb_le in H. rewrite H, orb_true_r. reflexivity.
Qed.

(** A longer display text is cut by the chunker: the first 4000 characters
    are edited into the placeholder, the chunks of the rest are replies to
    the placeholder. *)
Lemma update_long (w : World) (ctx : Ctx) (msg : Message) (text : jsstring)
  (chat : Chat) (st : State) :
  4000 < length (addPromo (w_isRuChat w) ctx chat text) ->
  updateMessagewithTranscription ctx msg text chat w st
  = bind (editMessageText (msg_chat_id msg) (message_id msg)
            (firstn 4000 (addPromo (w_isRuChat w) ctx chat text))
            markdown_options)
      (fun _ =>
         for_of (matchAll anyChar 4000
                   (skipn 4000 (addPromo (w_isRuChat w) ctx chat text)))
           (fun chunk =>
              bind (reply chunk (replying_to markdown_options (message_id msg)))
                   (fun _ => ret tt))) w st.
Proof.
  intros H.
  unfold updateMessagewithTranscription, imported_isRuChat.
  unfold bind at 1. cbv beta iota zeta.
  assert (Hne : addPromo (w_isRuChat w) ctx chat text <> [])
    by (apply nonempty_of_length; lia).
  assert (Ht : truthy (addPromo (w_isRuChat w) ctx chat text) = true)
    by (destruct (addPromo (w_isRuChat w) ctx chat text); [congruence | reflexivity]).
  assert (Hl : (length (addPromo (w_isRuChat w) ctx chat text) <=? 4000) = false)
    by (apply Nat.leb_gt; assumption).
  rewrite Ht, Hl, (matchAll_anyChar_unfold Hne). reflexivity.
Qed.

(** A loop of awaited calls only appends to the log. *)
Lemma for_of_extends (A : Type) (l : list A) (f : A -> Event)
  (answer : World -> list Event -> JsError + Message) (w : World) (st : State) :
  exists rest,
    trace (fst (for_of l (fun x => bind (call (f x) answer) (fun _ => ret tt))
                  w st))
    = trace st ++ rest.
Proof.
  revert st; induction l as [|x l IH]; intros st.
  - exists []. cbn. rewrite app_nil_r. reflexivity.
  - cbn [for_of]. unfold bind at 1. unfold bind at 1. unfold call at 1.
    destruct (answer w _) as [e|m].
    + exists [f x]. reflexivity.
    + cbn [ret]. 
      match goal with
      | |- context [for_of l ?body w ?s] => destruct (IH s) as (rest & Hrest)
      end.
      exists (f x :: rest). rewrite Hrest. cbn [trace].
      rewrite <- app_assoc. reflexivity.
Qed.

(** C7.  A display text of 9000 characters that is delivered successfully in
    interactive mode makes exactly three calls: one edit of the placeholder
    with the first 4000 characters, then a reply with the next 4000, then a
    reply with the last 1000, each of the two replies carrying the
    placeholder's message id as its [reply_to_message_id]. *)
Theorem long_text_is_one_edit_then_replies (w : World) (ctx : Ctx)
  (msg : Message) (text : jsstring) (chat : Chat) (st st' : State) :
  let display := addPromo (w_isRuChat w) ctx chat text in
  Z.of_nat (length display) = 9000%Z ->
  updateMessagewithTranscription ctx msg text chat w st = (st', inr tt) ->
  trace st' =
    trace st
    ++ [ EvEditMessageText (msg_chat_id msg) (message_id msg)
           (firstn 4000 display)
           {| parse_mode := Some (str "Markdown");
              disable_web_page_preview := Some true;
              reply_to_message_id := None |};
         EvReply (firstn 4000 (skipn 4000 display))
           {| parse_mode := Some (str "Markdown");
              disable_web_page_preview := Some true;
              reply_to_message_id := Some (message_id msg) |};
         EvReply (skipn 4000 (skipn 4000 display))
           {| parse_mode := Some (str "Markdown");
              disable_web_page_preview := Some true;
              reply_to_message_id := Some (message_id msg) |} ]
  /\ display = firstn 4000 display ++ firstn 4000 (skipn 4000 display)
               ++ skipn 4000 (skipn 4000 display)
  /\ length (firstn 4000 display) = 4000
  /\ length (firstn 4000 (skipn 4000 display)) = 4000
  /\ length (skipn 4000 (skipn 4000 display)) = 1000.
Proof.
  intros display Hlen Hrun.
  assert (L1 : length (skipn 4000 display) = 5000)
    by (rewrite length_skipn; lia).
  assert (L2 : length (skipn 4000 (skipn 4000 display)) = 1000)
    by (rewrite length_skipn; lia).
  assert (L3 : skipn 4000 (skipn 4000 (skipn 4000 display)) = [])
    by (apply length_zero_iff_nil; rewrite length_skipn; lia).
  split; [|repeat split].
  - rewrite update_long in Hrun by (fold display; lia). fold display in Hrun.
    rewrite (@matchAll_anyChar_unfold (skipn 4000 display)) in Hrun
      by (apply nonempty_of_length; lia).
    rewrite (@matchAll_anyChar_unfold (skipn 4000 (skipn 4000 display))) in Hrun
      by (apply nonempty_of_length; lia).
    rewrite L3 in Hrun.
    rewrite (firstn_all2 (n := 4000) (skipn 4000 (skipn 4000 display))) in Hrun
      by lia.
    change (matchAll anyChar 4000 []) with (@nil jsstring) in Hrun.
    cbn [for_of] in Hrun.
    unfold bind, editMessageText, reply, call, ret in Hrun.
    cbn [trace unhandled] in Hrun.
    destruct (w_editMessageText w _) as [e|[]]; [discriminate|].
    destruct (w_reply w _) as [e|m1]; [discriminate|].
    destruct (w_reply w _) as [e|m2]; [discriminate|].
    inversion Hrun; subst st'. cbn [trace].
    rewrite <- !app_assoc. cbn [app].
    unfold replying_to, markdown_options.
    cbn [parse_mode disable_web_page_preview reply_to_message_id].
    repeat f_equal.
  - rewrite (firstn_skipn 4000 (skipn 4000 display)).
    symmetry; apply firstn_skipn.
  - rewrite length_firstn; lia.
  - rewrite length_firstn; lia.
  - exact L2.
Qed.

(** * The credential gate *)

(** With the engine ['google'] and no key, the interactive path sends the
    placeholder and hands the localized notice to the delivery function,
    without awaiting it. *)
Lemma sendTranscription_gate (w : World) (ctx : Ctx) (url : jsstring)
  (chat : Chat) (fileId : jsstring) (message sent : Message) (st : State) :
  missing_google_key chat = true ->
  message_of ctx = Some message ->
  w_replyWithMarkdown w (trace st ++ [placeholder_event ctx message]) = inr sent ->
  sendTranscription ctx url chat fileId w st
  = not_awaited
      (updateMessagewithTranscription ctx sent
         (i18n_t ctx (str "google_error_creds")) chat)
      w {| trace := trace st ++ [placeholder_event ctx message];
           unhandled := unhandled st |}.
Proof.
  intros Hgate Hmsg Hsent.
  unfold sendTranscription. rewrite Hmsg.
  unfold bind at 1.
  unfold sendVoiceRecognitionMessage, replyWithMarkdown, call.
  fold (placeholder_event ctx message). rewrite Hsent, Hgate. reflexivity.
Qed.

(** Not awaiting a call changes who sees its failure, not what it logs. *)
Lemma not_awaited_trace (A : Type) (m : M A) (w : World) (st : State) :
  trace (fst (not_awaited m w st)) = trace (fst (m w st)).
Proof.
  unfold not_awaited. destruct (m w st) as [st' [e|a]]; reflexivity.
Qed.

(** C10.  In an interactive chat outside the promo-exemption set, the
    missing-credentials notice goes through the delivery function of the
    transcriptions and is shown with the promo suffix appended: the edit of
    the placeholder carries the notice, a newline and the promo text (its
    first 4000 characters, should the whole be longer). *)
Theorem credential_notice_carries_promo (w : World) (ctx : Ctx)
  (url : jsstring) (chat : Chat) (fileId : jsstring) (message sent : Message) :
  missing_google_key chat = true ->
  includes promoExceptions (ctx_chat_id ctx) = false ->
  i18n_t ctx (str "google_error_creds") <> [] ->
  message_of ctx = Some message ->
  w_replyWithMarkdown w [placeholder_event ctx message] = inr sent ->
  let shown :=
    i18n_t ctx (str "google_error_creds") ++ nl
    ++ promoTexts (if w_isRuChat w chat then ru else en) in
  exists rest,
    trace (fst (run w (sendTranscription ctx url chat fileId)))
    = [ placeholder_event ctx message;
        EvEditMessageText (msg_chat_id sent) (message_id sent)
          (firstn 4000 shown) markdown_options ] ++ rest
    /\ (length shown <= 4000 -> firstn 4000 shown = shown /\ rest = []).
Proof.
  intros Hgate Hplain Hne Hmsg Hsent shown.
  unfold run. rewrite (@sendTranscription_gate w ctx url chat fileId message sent initial
             Hgate Hmsg Hsent).
  assert (Hshown : addPromo (w_isRuChat w) ctx chat
                     (i18n_t ctx (str "google_error_creds")) = shown).
  { unfold addPromo. rewrite Hplain.
    destruct (i18n_t ctx (str "google_error_creds")); [congruence | reflexivity]. }
  assert (Hnonempty : truthy shown = true).
  { subst shown. destruct (i18n_t ctx (str "google_error_creds"));
      [congruence | reflexivity]. }
  rewrite not_awaited_trace.
  destruct (Nat.le_gt_cases (length shown) 4000) as [Hshort|Hlong].
  - rewrite update_short by (rewrite Hshown; exact Hshort).
    rewrite Hshown. unfold or_else. rewrite Hnonempty.
    rewrite (firstn_all2 (n := 4000) shown Hshort).
    exists []. split; [reflexivity | auto].
  - rewrite update_long by (rewrite Hshown; exact Hlong).
    rewrite Hshown. unfold bind at 1. unfold editMessageText, call, initial.
    cbn [trace unhandled app].
    destruct (w_editMessageText w _) as [e|[]].
    + exists []. split; [reflexivity | intros; lia].
    + match goal with
      | |- context [for_of ?l _ w ?s] =>
          destruct (@for_of_extends _ l
                      (fun chunk =>
                         EvReply chunk
                           (replying_to markdown_options (message_id sent)))
                      w_reply w s) as (rest & Hrest)
      end.
      exists rest. split; [exact Hrest | intros; lia].
Qed.

(** C3 (as amended).  With the engine ['google'] and no key no engine call is
    made.  In interactive mode the placeholder is edited to the display form
    of the localized credential-error text, that is the text itself in a
    promo-exempt chat and the text followed by a newline and the promo text
    in any other chat (the display form being non-empty and at most 4000
    characters long), and the function returns whether or not the edit
    succeeds.  In silent mode only the typing action is issued: no message
    is sent and nothing is reported. *)
Theorem credential_gate_short_circuits (w : World) (ctx : Ctx)
  (url : jsstring) (chat : Chat) (fileId : jsstring) (message sent : Message) :
  missing_google_key chat = true ->
  message_of ctx = Some message ->
  w_replyWithMarkdown w [placeholder_event ctx message] = inr sent ->
  let notice :=
    addPromo (w_isRuChat w) ctx chat (i18n_t ctx (str "google_error_creds")) in
  let edit :=
    EvEditMessageText (msg_chat_id sent) (message_id sent) notice
      markdown_options in
  let typing := EvReplyWithChatAction (str "typing") in
  notice <> [] ->
  length notice <= 4000 ->
  run w (sendTranscription ctx url chat fileId)
  = ({| trace := [placeholder_event ctx message; edit];
        unhandled :=
          match w_editMessageText w [placeholder_event ctx message; edit] with
          | inl err => [err]
          | inr _ => []
          end |}, inr tt)
  /\ fst (run w (sendAction ctx url chat fileId))
     = {| trace := [typing]; unhandled := [] |}
  /\ (w_replyWithChatAction w [typing] = inr tt ->
      snd (run w (sendAction ctx url chat fileId)) = inr tt).
Proof.
  intros Hgate Hmsg Hsent notice edit typing Hne Hshort.
  subst edit typing. split; [|split].
  - unfold run.
    rewrite (@sendTranscription_gate w ctx url chat fileId message sent initial
               Hgate Hmsg Hsent).
    unfold not_awaited. rewrite update_short by exact Hshort.
    fold notice. unfold or_else.
    destruct notice as [|c notice'] eqn:En; [congruence|]. cbn [truthy].
    unfold editMessageText, call, initial. cbn [trace unhandled app].
    destruct (w_editMessageText w _) as [e|[]]; reflexivity.
  - unfold run, sendAction, bind, replyWithChatAction, call, initial.
    cbn [trace unhandled app]. rewrite Hgate.
    destruct (w_replyWithChatAction w _) as [e|[]]; reflexivity.
  - intros Hok.
    unfold run, sendAction, bind, replyWithChatAction, call, initial.
    cbn [trace unhandled app]. rewrite Hok, Hgate. reflexivity.
Qed.

(** C3 as stated fails: in a chat outside the promo-exemption set the
    placeholder is not edited to the credential-error text but to that text
    with the promo suffix appended. *)
Lemma credential_notice_is_not_the_bare_text :
  let chat := Sample.chat Sample.plain_id "google" None false false in
  let sent := Sample.placeholder Sample.plain_id in
  let ctx := Sample.ctx Sample.plain_id (Some 1000%Z) in
  let final := fst (run (Sample.world chat [] sent false)
                        (sendTranscription ctx (str "https://files/v.oga") chat
                           (str "AwADBAAD"))) in
  missing_google_key chat = true
  /\ trace final =
       [ placeholder_event ctx (Sample.voice_message Sample.plain_id (Some 1000%Z));
         EvEditMessageText Sample.plain_id 101
           (i18n_t ctx (str "google_error_creds") ++ nl ++ promoTexts en)
           markdown_options ]
  /\ (forall chatId messageId text options,
        In (EvEditMessageText chatId messageId text options) (trace final) ->
        text <> i18n_t ctx (str "google_error_creds")).
Proof.
  cbv zeta. split; [reflexivity | split; [vm_compute; reflexivity|]].
  intros chatId messageId text options H. vm_compute in H.
  destruct H as [H|[H|[]]]; [discriminate H|].
  inversion H; subst. vm_compute. discriminate.
Qed.

(** * The text formatter *)

Lemma dropWhile_split (p : codeunit -> bool) (s : jsstring) :
  exists pre,
    s = pre ++ dropWhile p s
    /\ Forall (fun c => p c = true) pre
    /\ match dropWhile p s with
       | [] => True
       | c :: _ => p c = false
       end.
Proof.
  induction s as [|c s IH]; simpl.
  - exists []. repeat split. constructor.
  - destruct (p c) eqn:Hc.
    + destruct IH as (pre & E & F & H).
      exists (c :: pre). repeat split.
      * simpl. congruence.
      * constructor; assumption.
      * assumption.
    + exists []. repeat split; [constructor | assumption].
Qed.

(** [trim] removes the surrounding white space, and nothing else. *)
Lemma trim_is_Trimmed (s : jsstring) : Trimmed s (trim s).
Proof.
  unfold Trimmed, trim, trimEnd, trimStart.
  destruct (dropWhile_split isTrimmed s) as (pre & E1 & F1 & H1).
  destruct (dropWhile_split isTrimmed (rev (dropWhile isTrimmed s)))
    as (post & E2 & F2 & H2).
  set (s1 := dropWhile isTrimmed s) in *.
  set (t := dropWhile isTrimmed (rev s1)) in *.
  assert (E3 : s1 = rev t ++ rev post).
  { rewrite <- rev_app_distr, <- E2, rev_involutive. reflexivity. }
  exists pre, (rev post). repeat split.
  - rewrite <- E3. exact E1.
  - exact F1.
  - apply Forall_rev; exact F2.
  - unfold starts_clean. destruct (rev t) as [|c u] eqn:Et; [exact I|].
    rewrite E3 in H1. simpl in H1. exact H1.
  - rewrite rev_involutive. exact H2.
Qed.

Lemma filter_truthy_nonempty (l : list jsstring) :
  Forall (fun piece => piece <> []) (filter truthy l).
Proof.
  apply Forall_forall. intros piece H. apply filter_In in H.
  destruct H as [_ H]. destruct piece; [discriminate | discriminate].
Qed.

(** C5 (as amended).  With the timecode flag off the formatted text is the
    texts of the segments, each trimmed of its surrounding white space, the
    empty ones dropped, joined by ". "; every joined piece is non-empty, so
    no two separators are ever put next to each other by the join; and the
    segments [("0:00","hello "), ("0:05","")] give "hello". *)
Theorem plain_format_joins_trimmed_texts (chat : Chat) (segments : list Segment) :
  timecodesEnabled chat = false ->
  let pieces := filter truthy (map (fun t => trim (snd t)) segments) in
  formatText chat segments = join (str ". ") pieces
  /\ (forall t, In t segments -> Trimmed (snd t) (trim (snd t)))
  /\ (forall piece, In piece pieces <->
        piece <> [] /\ exists t, In t segments /\ piece = trim (snd t))
  /\ Forall (fun piece => piece <> []) pieces
  /\ formatText chat [(str "0:00", str "hello "); (str "0:05", [])]
     = str "hello".
Proof.
  intros Hoff pieces. unfold formatText. rewrite Hoff.
  split; [reflexivity|]. split; [intros; apply trim_is_Trimmed|].
  split; [|split; [apply filter_truthy_nonempty | reflexivity]].
  intros piece. subst pieces. rewrite filter_In, in_map_iff. split.
  - intros [(t & E & Hin) Ht]. split.
    + destruct piece; [discriminate | discriminate].
    + exists t. split; [assumption | congruence].
  - intros [Hne (t & Hin & E)]. split.
    + exists t. split; [congruence | assumption].
    + destruct piece; [congruence | reflexivity].
Qed.

(** C5 as stated fails: the output can contain two consecutive separators,
    because a segment text may itself contain ". . ". *)
Lemma plain_format_can_contain_two_separators :
  let chat := Sample.chat Sample.exempt_id "wit" None false false in
  timecodesEnabled chat = false
  /\ formatText chat [(str "0:00", str "a. . b")] = str "a. . b"
  /\ Contains (str ". " ++ str ". ")
       (formatText chat [(str "0:00", str "a. . b")]).
Proof.
  cbv zeta. split; [reflexivity | split; [reflexivity|]].
  exists (str "a"), (str "b"). reflexivity.
Qed.

(** * The promo suffix *)

(** A display text that is not empty and shorter than 4000 characters is
    delivered in silent mode by one message, a reply to the original. *)
Lemma send_short (w : World) (ctx : Ctx) (text : jsstring) (chat : Chat)
  (message : Message) (st : State) :
  message_of ctx = Some message ->
  addPromo (w_isRuChat w) ctx chat text <> [] ->
  length (addPromo (w_isRuChat w) ctx chat text) < 4000 ->
  sendMessageWithTranscription ctx text chat w st
  = bind (sendMessage (id chat) (addPromo (w_isRuChat w) ctx chat text)
            (replying_to markdown_options (message_id message)))
         (fun _ => ret tt) w st.
Proof.
  intros Hmsg Hne Hlt.
  unfold sendMessageWithTranscription, imported_isRuChat. rewrite Hmsg.
  unfold bind at 1. cbv beta iota zeta.
  apply Nat.ltb_lt in Hlt. rewrite Hlt.
  destruct (addPromo (w_isRuChat w) ctx chat text); [congruence | reflexivity].
Qed.

(** An empty display text is not delivered at all in silent mode. *)
Lemma send_empty (w : World) (ctx : Ctx) (text : jsstring) (chat : Chat)
  (message : Message) (st : State) :
  message_of ctx = Some message ->
  addPromo (w_isRuChat w) ctx chat text = [] ->
  sendMessageWithTranscription ctx text chat w st = (st, inr tt).
Proof.
  intros Hmsg He.
  unfold sendMessageWithTranscription, imported_isRuChat. rewrite Hmsg.
  unfold bind at 1. cbv beta iota zeta. rewrite He. reflexivity.
Qed.

Import Log.

Unset Implicit Arguments.

(** A loop of awaited calls that ends normally has made one call per
    element, in order. *)
Lemma for_of_calls_done (A : Type) (l : list A) (f : A -> Event)
  (answer : World -> list Event -> JsError + Message) (w : World)
  (st st' : State) :
  for_of l (fun x => bind (call (f x) answer) (fun _ => ret tt)) w st
  = (st', inr tt) ->
  trace st' = trace st ++ map f l /\ unhandled st' = unhandled st.
Proof.
  revert st; induction l as [|x l IH]; intros st H.
  - cbn in H. inversion H; subst. rewrite app_nil_r. split; reflexivity.
  - cbn [for_of] in H. unfold bind at 1 in H. unfold bind at 1 in H.
    unfold call at 1 in H.
    destruct (answer w _) as [e|m]; [discriminate|].
    cbn [ret] in H. apply IH in H. cbn [trace unhandled] in H.
    destruct H as [Ht Hu]. split; [|exact Hu].
    rewrite Ht, <- app_assoc. reflexivity.
Qed.

Lemma delivered_text_of_replies (options : Options) (chunks : list jsstring) :
  delivered_text (map (fun chunk => EvReply chunk options) chunks)
  = concat chunks.
Proof.
  unfold delivered_text. rewrite map_map. cbn [message_text].
  rewrite map_id. reflexivity.
Qed.

(** The log of an interactive delivery that ends normally: one edit of the
    placeholder, then one reply per further piece carrying the placeholder's
    message id as [reply_to_message_id]; the pieces concatenate to the
    display text. *)
Lemma interactive_delivery_log (w : World) (ctx : Ctx) (msg : Message)
  (text : jsstring) (chat : Chat) (st st' : State) :
  addPromo (w_isRuChat w) ctx chat text <> [] ->
  updateMessagewithTranscription ctx msg text chat w st = (st', inr tt) ->
  exists first rest,
    trace st' =
      trace st
      ++ EvEditMessageText (msg_chat_id msg) (message_id msg) first
           {| parse_mode := Some (str "Markdown");
              disable_web_page_preview := Some true;
              reply_to_message_id := None |}
         :: map (fun chunk =>
                   EvReply chunk
                     {| parse_mode := Some (str "Markdown");
                        disable_web_page_preview := Some true;
                        reply_to_message_id := Some (message_id msg) |})
                rest
    /\ first ++ concat rest = addPromo (w_isRuChat w) ctx chat text
    /\ Forall (fun chunk => 1 <= length chunk <= 4000) (first :: rest)
    /\ unhandled st' = unhandled st.
Proof.
  intros Hne Hrun.
  set (display := addPromo (w_isRuChat w) ctx chat text) in *.
  assert (Hpos : 0 < length display)
    by (destruct display; [congruence | simpl; lia]).
  destruct (Nat.le_gt_cases (length display) 4000) as [Hshort|Hlong].
  - rewrite update_short in Hrun by exact Hshort. fold display in Hrun.
    unfold or_else in Hrun.
    destruct display as [|c d] eqn:Ed; [congruence|]. cbn [truthy] in Hrun.
    unfold editMessageText, call in Hrun.
    destruct (w_editMessageText w _) as [e|[]]; [discriminate|].
    inversion Hrun; subst st'. cbn [trace unhandled].
    exists (c :: d), []. cbn [map concat]. rewrite app_nil_r.
    split; [unfold markdown_options; reflexivity|].
    split; [reflexivity|]. split; [|reflexivity].
    constructor; [simpl in *; lia | constructor].
  - rewrite update_long in Hrun by exact Hlong. fold display in Hrun.
    unfold bind at 1 in Hrun. unfold editMessageText, call at 1 in Hrun.
    destruct (w_editMessageText w _) as [e|[]]; [discriminate|].
    apply (for_of_calls_done _ _
             (fun chunk => EvReply chunk
                             (replying_to markdown_options (message_id msg))))
      in Hrun.
    cbn [trace unhandled] in Hrun. destruct Hrun as [Ht Hu].
    exists (firstn 4000 display), (matchAll anyChar 4000 (skipn 4000 display)).
    split.
    { rewrite Ht, <- app_assoc. cbn [app].
      unfold replying_to, markdown_options.
      cbn [parse_mode disable_web_page_preview reply_to_message_id].
      reflexivity. }
    split; [|split; [|exact Hu]].
    + rewrite matchAll_in_class_concat;
        [apply firstn_skipn | lia | apply Forall_forall; reflexivity].
    + constructor.
      * rewrite length_firstn. lia.
      * apply matchAllFrom_bounded. lia.
Qed.

Set Implicit Arguments.

(** C6 (as amended).  For a chat in the promo-exemption set no promo suffix
    is appended: the delivered display text is the formatted text unchanged.
    For every other chat a non-empty delivered display text ends with a
    newline followed by the promo text chosen by the Russian-chat
    classifier.  Both hold of the display text itself and of what a
    successful delivery of a non-empty display text puts into the chat: in
    interactive mode the edit and its replies, taken together, at any
    length; in silent mode the one message sent, for a display text shorter
    than 4000 characters.  Silent delivery of a longer display text is not
    covered. *)
Theorem promo_suffix_rule (w : World) (ctx : Ctx) (chat : Chat)
  (text : jsstring) :
  let display := addPromo (w_isRuChat w) ctx chat text in
  let suffix := nl ++ promoTexts (if w_isRuChat w chat then ru else en) in
  let exempt := includes promoExceptions (ctx_chat_id ctx) in
  (exempt = true -> display = text)
  /\ (exempt = false -> display <> [] -> EndsWith suffix display)
  /\ (forall msg st st',
        display <> [] ->
        updateMessagewithTranscription ctx msg text chat w st = (st', inr tt) ->
        exists new,
          trace st' = trace st ++ new
          /\ Forall (fun e => edit_or_reply e = true) new
          /\ delivered_text new = display
          /\ (exempt = true -> delivered_text new = text)
          /\ (exempt = false -> EndsWith suffix (delivered_text new)))
  /\ (forall message st st',
        message_of ctx = Some message ->
        display <> [] -> length display < 4000 ->
        sendMessageWithTranscription ctx text chat w st = (st', inr tt) ->
        exists new,
          trace st' = trace st ++ new
          /\ new = [EvSendMessage (id chat) display
                      {| parse_mode := Some (str "Markdown");
                         disable_web_page_preview := Some true;
                         reply_to_message_id := Some (message_id message) |}]
          /\ delivered_text new = display
          /\ (exempt = true -> delivered_text new = text)
          /\ (exempt = false -> EndsWith suffix (delivered_text new))).
Proof.
  intros display suffix exempt.
  assert (H1 : exempt = true -> display = text).
  { intros H. subst display exempt. unfold addPromo.
    rewrite H, andb_false_r. reflexivity. }
  assert (H2 : exempt = false -> display <> [] -> EndsWith suffix display).
  { intros H. subst display exempt suffix. unfold addPromo. rewrite H.
    destruct text as [|c text]; cbn [truthy andb negb].
    - congruence.
    - intros _. exists (c :: text). reflexivity. }
  split; [exact H1|]. split; [exact H2|]. split.
  - intros msg st st' Hne Hrun.
    destruct (interactive_delivery_log w ctx msg text chat st st' Hne Hrun)
      as (first & rest & Ht & Hc & _ & _).
    fold display in Hc.
    eexists. split; [exact Ht|].
    assert (Hd : delivered_text
                   (EvEditMessageText (msg_chat_id msg) (message_id msg) first
                      {| parse_mode := Some (str "Markdown");
                         disable_web_page_preview := Some true;
                         reply_to_message_id := None |}
                    :: map (fun chunk =>
                              EvReply chunk
                                {| parse_mode := Some (str "Markdown");
                                   disable_web_page_preview := Some true;
                                   reply_to_message_id :=
                                     Some (message_id msg) |})
                           rest)
                 = display).
    { unfold delivered_text. cbn [map concat message_text].
      fold (delivered_text
              (map (fun chunk =>
                      EvReply chunk
                        {| parse_mode := Some (str "Markdown");
                           disable_web_page_preview := Some true;
                           reply_to_message_id := Some (message_id msg) |})
                   rest)).
      rewrite delivered_text_of_replies. exact Hc. }
    split.
    { constructor; [reflexivity|].
      apply Forall_forall. intros e He. apply in_map_iff in He.
      destruct He as (chunk & E & _). subst e. reflexivity. }
    split; [exact Hd|]. rewrite Hd.
    split; [exact H1 | intros H; exact (H2 H Hne)].
  - intros message st st' Hmsg Hne Hshort Hrun.
    rewrite (@send_short w ctx text chat message st Hmsg Hne Hshort) in Hrun.
    fold display in Hrun.
    unfold bind, sendMessage, call, ret in Hrun.
    destruct (w_sendMessage w _) as [e|sent]; [discriminate|].
    inversion Hrun; subst st'. cbn [trace].
    eexists. split; [reflexivity|].
    split.
    { unfold replying_to, markdown_options.
      cbn [parse_mode disable_web_page_preview reply_to_message_id].
      reflexivity. }
    assert (Hd : delivered_text
                   [EvSendMessage (id chat) display
                      (replying_to markdown_options (message_id message))]
                 = display).
    { unfold delivered_text. cbn [map concat message_text].
      apply app_nil_r. }
    split; [exact Hd|]. rewrite Hd.
    split; [exact H1 | intros H; exact (H2 H Hne)].
Qed.

(** C6 as stated fails, twice.  In an exempt chat the delivered text
    contains the promo suffix whenever the transcript itself does.  And in a
    silent chat outside the exemption set a transcript of 4000 letters is
    delivered as the letters and then the promo text, with no newline before
    the promo text. *)
Lemma promo_suffix_counterexample :
  let exempt_ctx := Sample.ctx Sample.exempt_id None in
  let exempt_chat := Sample.chat Sample.exempt_id "wit" None false false in
  let text := str "as they say" ++ nl ++ promoTexts en in
  let w1 := Sample.world exempt_chat [(str "0:00", text)]
              (Sample.placeholder Sample.exempt_id) false in
  let ctx := Sample.ctx Sample.plain_id None in
  let chat := Runs.wit_chat true false in
  let w2 := Sample.world chat [(str "0:00", Sample.letters 4000)] Runs.sent
              false in
  let log2 := trace (fst (run w2 (handleMessage ctx))) in
  (includes promoExceptions (ctx_chat_id exempt_ctx) = true
   /\ delivered_text (trace (fst (run w1 (handleMessage exempt_ctx))))
      = Sample.t (str "initiated") ++ text
   /\ In (EvEditMessageText Sample.exempt_id 101 text markdown_options)
         (trace (fst (run w1 (handleMessage exempt_ctx))))
   /\ Contains (nl ++ promoTexts en) text)
  /\ (includes promoExceptions (ctx_chat_id ctx) = false
      /\ filter is_message log2
         = [ EvSendMessage Sample.plain_id (Sample.letters 4000)
               {| parse_mode := Some (str "Markdown");
                  disable_web_page_preview := Some true;
                  reply_to_message_id := Some 100%Z |};
             EvReply (promoTexts en)
               {| parse_mode := Some (str "Markdown");
                  disable_web_page_preview := Some true;
                  reply_to_message_id := Some 101%Z |} ]
      /\ delivered_text log2 = Sample.letters 4000 ++ promoTexts en
      /\ ~ EndsWith (nl ++ promoTexts en) (delivered_text log2)).
Proof.
  cbv zeta. split.
  - split; [reflexivity|]. split; [vm_compute; reflexivity|]. split.
    + vm_compute. do 5 right. left. reflexivity.
    + exists (str "as they say"), []. reflexivity.
  - split; [reflexivity|]. split; [vm_compute; reflexivity|].
    split; [vm_compute; reflexivity|].
    intros [pre E].
    match type of E with
    | ?delivered = _ =>
        assert (Hb : existsb (N.eqb 10) delivered = false)
          by (vm_compute; reflexivity)
    end.
    rewrite E, existsb_app in Hb.
    apply orb_false_iff in Hb. destruct Hb as [_ Hb].
    vm_compute in Hb. discriminate Hb.
Qed.

(** * Persistence *)

Lemma addPromo_empty (isRuChat : Chat -> bool) (ctx : Ctx) (chat : Chat)
  (text : jsstring) :
  addPromo isRuChat ctx chat text = [] -> text = [].
Proof.
  unfold addPromo. destruct text as [|c text]; [reflexivity|].
  destruct (truthy (c :: text) && _); discriminate.
Qed.

(** A text with timecodes is empty only when there is no segment; the text
    without timecodes is then empty as well. *)
Lemma formatText_empty (chat : Chat) (segments : list Segment) :
  formatText chat segments = [] -> plainText segments = [].
Proof.
  unfold formatText. destruct (timecodesEnabled chat); [|tauto].
  destruct segments as [|[label text] rest]; [reflexivity|].
  unfold timecodedText.
  destruct rest as [|t rest]; cbn [map join fst snd]; intros H.
  - apply app_eq_nil in H. destruct H as [_ H]. discriminate H.
  - apply app_eq_nil in H. destruct H as [H _].
    apply app_eq_nil in H. destruct H as [_ H]. discriminate H.
Qed.

(** The text without timecodes is computed from the segment texts alone. *)
Lemma plainText_ignores_labels (relabel : jsstring -> jsstring)
  (segments : list Segment) :
  plainText (map (fun t => (relabel (fst t), snd t)) segments)
  = plainText segments.
Proof.
  unfold plainText. rewrite map_map. reflexivity.
Qed.

(** C8 (as amended).  In every successful run, interactive or silent and
    whatever the timecode flag, the voice record is stored with the
    non-timecoded formatting of the raw segments (trimmed, empty ones
    dropped, joined by ". ") as its aggregate text.  That text is computed
    from the segment texts alone: it is the same for any timecode labels, and
    no promo suffix is appended to it. *)
Theorem persisted_text_is_plain_text (w : World) (ctx : Ctx) (url : jsstring)
  (chat : Chat) (fileId : jsstring) (message sent : Message)
  (r : Transcription) (st1 : State) :
  let segments := textWithTimecodes r in
  let engine_call := EvUrlToText url (sanitizeChat chat) in
  let typing := EvReplyWithChatAction (str "typing") in
  let record :=
    EvAddVoice url (plainText segments) chat (duration r) segments fileId in
  missing_google_key chat = false ->
  message_of ctx = Some message ->
  w_addVoice w (trace st1 ++ [record]) = inr tt ->
  (w_replyWithMarkdown w [placeholder_event ctx message] = inr sent ->
   w_urlToText w [placeholder_event ctx message; engine_call] = inr r ->
   updateMessagewithTranscription ctx sent (formatText chat segments) chat w
     {| trace := [placeholder_event ctx message; engine_call];
        unhandled := [] |} = (st1, inr tt) ->
   run w (sendTranscription ctx url chat fileId)
   = ({| trace := trace st1 ++ [record; EvConsoleInfo];
         unhandled := unhandled st1 |}, inr tt))
  /\ (w_replyWithChatAction w [typing] = inr tt ->
      w_urlToText w [typing; engine_call] = inr r ->
      sendMessageWithTranscription ctx (formatText chat segments) chat w
        {| trace := [typing; engine_call]; unhandled := [] |} = (st1, inr tt) ->
      run w (sendAction ctx url chat fileId)
      = ({| trace := trace st1 ++ [record; EvConsoleInfo];
            unhandled := unhandled st1 |}, inr tt))
  /\ (forall relabel : jsstring -> jsstring,
        plainText (map (fun t => (relabel (fst t), snd t)) segments)
        = plainText segments).
Proof.
  intros segments engine_call typing record Hgate Hmsg Hstore.
  subst segments engine_call typing record.
  split; [|split; [|intros; apply plainText_ignores_labels]].
  - intros Hsent Hengine Hdeliver.
    unfold run, sendTranscription. rewrite Hmsg.
    unfold bind at 1.
    unfold sendVoiceRecognitionMessage, replyWithMarkdown, call at 1, initial.
    cbn [trace unhandled app]. fold (placeholder_event ctx message).
    rewrite Hsent, Hgate.
    unfold try_catch_finally, try_catch.
    unfold bind at 1. unfold urlToText, call at 1.
    cbn [trace unhandled app]. rewrite Hengine.
    unfold bind at 1. rewrite Hdeliver.
    unfold addVoice, call. rewrite Hstore.
    unfold console_info. cbn [trace unhandled].
    rewrite <- app_assoc. reflexivity.
  - intros Htyping Hengine Hdeliver.
    unfold run, sendAction.
    unfold bind at 1. unfold replyWithChatAction, call at 1, initial.
    cbn [trace unhandled app]. rewrite Htyping, Hgate.
    unfold try_catch_finally, try_catch.
    unfold bind at 1. unfold urlToText, call at 1.
    cbn [trace unhandled app]. rewrite Hengine.
    unfold bind at 1. rewrite Hdeliver.
    unfold addVoice, call. rewrite Hstore.
    unfold console_info. cbn [trace unhandled].
    rewrite <- app_assoc. reflexivity.
Qed.

(** C8 as stated fails: the stored text contains a timecode label whenever a
    segment text does. *)
Lemma persisted_text_can_contain_a_label :
  let chat := Sample.chat Sample.plain_id "wit" None false true in
  let segments := [(str "0:05", str " back at 0:05 ")] in
  let w := Sample.world chat segments (Sample.placeholder Sample.plain_id) false in
  let final := fst (run w (handleMessage (Sample.ctx Sample.plain_id None))) in
  In (EvAddVoice (str "https://files/voice/file_7.oga") (str "back at 0:05")
        chat 12 segments (str "AwADBAAD")) (trace final)
  /\ Contains (str "0:05") (str "back at 0:05").
Proof.
  cbv zeta. split.
  - vm_compute. do 6 right. left. reflexivity.
  - exists (str "back at "), []. reflexivity.
Qed.

(** C9.  In silent mode an empty display text sends no message at all, not
    even a fallback notice, and the voice record is still stored, with an
    empty aggregate text. *)
Theorem silent_empty_text_is_stored_not_sent (w : World) (ctx : Ctx)
  (url : jsstring) (chat : Chat) (fileId : jsstring) (message : Message)
  (r : Transcription) :
  let segments := textWithTimecodes r in
  let typing := EvReplyWithChatAction (str "typing") in
  let engine_call := EvUrlToText url (sanitizeChat chat) in
  let record := EvAddVoice url [] chat (duration r) segments fileId in
  missing_google_key chat = false ->
  message_of ctx = Some message ->
  w_replyWithChatAction w [typing] = inr tt ->
  w_urlToText w [typing; engine_call] = inr r ->
  addPromo (w_isRuChat w) ctx chat (formatText chat segments) = [] ->
  plainText segments = []
  /\ run w (sendAction ctx url chat fileId)
     = ({| trace :=
             [typing; engine_call; record]
             ++ match w_addVoice w [typing; engine_call; record] with
                | inl err => [EvReport err (str "sendTranscription.silent")]
                | inr _ => []
                end
             ++ [EvConsoleInfo];
           unhandled := [] |}, inr tt).
Proof.
  intros segments typing engine_call record Hgate Hmsg Htyping Hengine Hempty.
  subst segments typing engine_call record.
  assert (Hplain : plainText (textWithTimecodes r) = [])
    by (apply (formatText_empty chat), (addPromo_empty _ _ _ _ Hempty)).
  split; [exact Hplain|].
  unfold run, sendAction.
  unfold bind at 1. unfold replyWithChatAction, call at 1, initial.
  cbn [trace unhandled app]. rewrite Htyping, Hgate.
  unfold try_catch_finally, try_catch.
  unfold bind at 1. unfold urlToText, call at 1.
  cbn [trace unhandled app]. rewrite Hengine.
  unfold bind at 1.
  rewrite (@send_empty w ctx _ chat message _ Hmsg Hempty).
  rewrite Hplain. unfold addVoice, call. cbn [trace unhandled app].
  destruct (w_addVoice w _) as [err|[]]; reflexivity.
Qed.

(** * The theorems at concrete requests *)


(** A silent chat and an attachment of exactly 19 MiB: the chat lookup is
    the only call. *)
Lemma size_gate_witness :
  run (Sample.world (Runs.wit_chat true false) [] Runs.sent false)
      (handleMessage (Sample.ctx Sample.plain_id (Some Runs.MiB19)))
  = ({| trace := [EvFindChat Sample.plain_id]; unhandled := [] |}, inr tt).
Proof.
  exact (@size_gate_stops_the_pipeline
           (Sample.world (Runs.wit_chat true false) [] Runs.sent false)
           (Sample.ctx Sample.plain_id (Some Runs.MiB19))
           (Runs.wit_chat true false)
           (Sample.voice_message Sample.plain_id (Some Runs.MiB19))
           {| file_id := Runs.fileId; file_size := Some Runs.MiB19 |}
           Runs.MiB19
           eq_refl eq_refl eq_refl eq_refl ltac:(apply Z.le_refl)).
Defined.

(** An interactive chat on ['google'] without a key, outside the exemption
    set: the placeholder, then its edit to the notice with the promo. *)
Lemma credential_gate_witness :
  trace (fst (run (Sample.world (Runs.google_chat false) [] Runs.sent false)
                  (sendTranscription (Sample.ctx Sample.plain_id None) Runs.url
                     (Runs.google_chat false) Runs.fileId)))
  = [ placeholder_event (Sample.ctx Sample.plain_id None)
        (Sample.voice_message Sample.plain_id None);
      EvEditMessageText Sample.plain_id 101
        (Sample.t (str "google_error_creds") ++ nl ++ promoTexts en)
        markdown_options ]
  /\ fst (run (Sample.world (Runs.google_chat true) [] Runs.sent false)
              (sendAction (Sample.ctx Sample.plain_id None) Runs.url
                 (Runs.google_chat true) Runs.fileId))
     = {| trace := [EvReplyWithChatAction (str "typing")]; unhandled := [] |}.
Proof.
  split.
  - exact (f_equal (fun p => trace (fst p))
             (proj1 (@credential_gate_short_circuits
                       (Sample.world (Runs.google_chat false) [] Runs.sent false)
                       (Sample.ctx Sample.plain_id None) Runs.url
                       (Runs.google_chat false) Runs.fileId
                       (Sample.voice_message Sample.plain_id None) Runs.sent
                       eq_refl eq_refl eq_refl
                       ltac:(discriminate)
                       ltac:(vm_compute; lia)))).
  - exact (proj1 (proj2 (@credential_gate_short_circuits
                       (Sample.world (Runs.google_chat true) [] Runs.sent false)
                       (Sample.ctx Sample.plain_id None) Runs.url
                       (Runs.google_chat true) Runs.fileId
                       (Sample.voice_message Sample.plain_id None) Runs.sent
                       eq_refl eq_refl eq_refl
                       ltac:(discriminate)
                       ltac:(vm_compute; lia)))).
Defined.

(** The notice of the same request, as the user sees it. *)
Lemma credential_notice_witness :
  exists rest,
    trace (fst (run (Sample.world (Runs.google_chat false) [] Runs.sent true)
                    (sendTranscription (Sample.ctx Sample.plain_id None)
                       Runs.url (Runs.google_chat false) Runs.fileId)))
    = [ placeholder_event (Sample.ctx Sample.plain_id None)
          (Sample.voice_message Sample.plain_id None);
        EvEditMessageText Sample.plain_id 101
          (firstn 4000
             (Sample.t (str "google_error_creds") ++ nl ++ promoTexts ru))
          markdown_options ] ++ rest.
Proof.
  destruct (@credential_notice_carries_promo
              (Sample.world (Runs.google_chat false) [] Runs.sent true)
              (Sample.ctx Sample.plain_id None) Runs.url
              (Runs.google_chat false) Runs.fileId
              (Sample.voice_message Sample.plain_id None) Runs.sent
              eq_refl eq_refl ltac:(discriminate) eq_refl eq_refl)
    as (rest & H & _).
  exists rest. exact H.
Defined.

(** The segments of the specification's example, timecodes off. *)
Lemma plain_format_witness :
  formatText (Runs.wit_chat false false) Runs.hello = str "hello".
Proof.
  exact (proj2 (proj2 (proj2 (proj2
           (@plain_format_joins_trimmed_texts (Runs.wit_chat false false)
              Runs.hello eq_refl))))).
Defined.

(** An exempt chat keeps the text; any other chat gets the suffix. *)
Lemma promo_suffix_witness :
  addPromo (fun _ => false) (Sample.ctx Sample.exempt_id None)
    (Runs.wit_chat false false) (str "hello") = str "hello"
  /\ EndsWith (nl ++ promoTexts en)
       (addPromo (fun _ => false) (Sample.ctx Sample.plain_id None)
          (Runs.wit_chat false false) (str "hello")).
Proof.
  split.
  - exact (proj1 (@promo_suffix_rule
                    (Sample.world (Runs.wit_chat false false) [] Runs.sent false)
                    (Sample.ctx Sample.exempt_id None)
                    (Runs.wit_chat false false) (str "hello")) eq_refl).
  - exact (proj1 (proj2 (@promo_suffix_rule
                    (Sample.world (Runs.wit_chat false false) [] Runs.sent false)
                    (Sample.ctx Sample.plain_id None)
                    (Runs.wit_chat false false) (str "hello")))
             eq_refl ltac:(discriminate)).
Defined.

(** Nine thousand letters delivered to an exempt interactive chat. *)
Lemma long_text_witness :
  let w := Sample.world (Runs.wit_chat false false) [] Runs.sent false in
  let ctx := Sample.ctx Sample.exempt_id None in
  let display :=
    addPromo (w_isRuChat w) ctx (Runs.wit_chat false false)
      (Sample.letters 9000) in
  trace (fst (updateMessagewithTranscription ctx Runs.sent
                (Sample.letters 9000) (Runs.wit_chat false false) w initial))
  = trace initial
    ++ [ EvEditMessageText (msg_chat_id Runs.sent) (message_id Runs.sent)
           (firstn 4000 display)
           {| parse_mode := Some (str "Markdown");
              disable_web_page_preview := Some true;
              reply_to_message_id := None |};
         EvReply (firstn 4000 (skipn 4000 display))
           {| parse_mode := Some (str "Markdown");
              disable_web_page_preview := Some true;
              reply_to_message_id := Some (message_id Runs.sent) |};
         EvReply (skipn 4000 (skipn 4000 display))
           {| parse_mode := Some (str "Markdown");
              disable_web_page_preview := Some true;
              reply_to_message_id := Some (message_id Runs.sent) |} ].
Proof.
  intros w ctx display.
  refine (proj1 (@long_text_is_one_edit_then_replies w ctx Runs.sent
                   (Sample.letters 9000) (Runs.wit_chat false false) initial
                   (fst (updateMessagewithTranscription ctx Runs.sent
                           (Sample.letters 9000) (Runs.wit_chat false false)
                           w initial)) _ _)).
  - vm_compute; reflexivity.
  - vm_compute; reflexivity.
Defined.

(** A successful interactive run and a successful silent run on the segments
    of the example: the stored text is "hello" in both. *)
Lemma persisted_text_witness :
  (exists log,
     fst (run (Sample.world (Runs.wit_chat false true) Runs.hello Runs.sent false)
              (sendTranscription (Sample.ctx Sample.plain_id None) Runs.url
                 (Runs.wit_chat false true) Runs.fileId))
     = {| trace :=
            log ++ [ EvAddVoice Runs.url (str "hello")
                       (Runs.wit_chat false true) 12 Runs.hello Runs.fileId;
                     EvConsoleInfo ];
          unhandled := [] |})
  /\ (exists log,
        fst (run (Sample.world (Runs.wit_chat true true) Runs.hello Runs.sent false)
                 (sendAction (Sample.ctx Sample.plain_id None) Runs.url
                    (Runs.wit_chat true true) Runs.fileId))
        = {| trace :=
               log ++ [ EvAddVoice Runs.url (str "hello")
                          (Runs.wit_chat true true) 12 Runs.hello Runs.fileId;
                        EvConsoleInfo ];
             unhandled := [] |}).
Proof.
  split.
  - eexists.
    refine (f_equal fst
              (proj1 (@persisted_text_is_plain_text
                        (Sample.world (Runs.wit_chat false true) Runs.hello
                           Runs.sent false)
                        (Sample.ctx Sample.plain_id None) Runs.url
                        (Runs.wit_chat false true) Runs.fileId
                        (Sample.voice_message Sample.plain_id None) Runs.sent
                        {| textWithTimecodes := Runs.hello; duration := 12 |}
                        {| trace := _; unhandled := [] |}
                        eq_refl eq_refl eq_refl) eq_refl eq_refl _)).
    vm_compute; reflexivity.
  - eexists.
    refine (f_equal fst
              (proj1 (proj2 (@persisted_text_is_plain_text
                        (Sample.world (Runs.wit_chat true true) Runs.hello
                           Runs.sent false)
                        (Sample.ctx Sample.plain_id None) Runs.url
                        (Runs.wit_chat true true) Runs.fileId
                        (Sample.voice_message Sample.plain_id None) Runs.sent
                        {| textWithTimecodes := Runs.hello; duration := 12 |}
                        {| trace := _; unhandled := [] |}
                        eq_refl eq_refl eq_refl)) eq_refl eq_refl _)).
    vm_compute; reflexivity.
Defined.

(** A silent run whose only segment is white space: the typing action, the
    engine call, the record with the empty text, the timing line. *)
Lemma silent_empty_text_witness :
  run (Sample.world (Runs.wit_chat true false) [(str "0:00", str "  ")]
         Runs.sent false)
      (sendAction (Sample.ctx Sample.plain_id None) Runs.url
         (Runs.wit_chat true false) Runs.fileId)
  = ({| trace :=
          [ EvReplyWithChatAction (str "typing");
            EvUrlToText Runs.url (sanitizeChat (Runs.wit_chat true false));
            EvAddVoice Runs.url [] (Runs.wit_chat true false) 12
              [(str "0:00", str "  ")] Runs.fileId;
            EvConsoleInfo ];
        unhandled := [] |}, inr tt).
Proof.
  exact (proj2 (@silent_empty_text_is_stored_not_sent
                  (Sample.world (Runs.wit_chat true false)
                     [(str "0:00", str "  ")] Runs.sent false)
                  (Sample.ctx Sample.plain_id None) Runs.url
                  (Runs.wit_chat true false) Runs.fileId
                  (Sample.voice_message Sample.plain_id None)
                  {| textWithTimecodes := [(str "0:00", str "  ")];
                     duration := 12 |}
                  eq_refl eq_refl eq_refl eq_refl eq_refl)).
Defined.

(** * The kinds of calls a computation makes *)

Import Log.

Unset Implicit Arguments.

Section EmitsRules.

Variable k : Kind.

Lemma emitsAt_nothing (A : Type) (m : M A) (w : World) (st : State) :
  fst (m w st) = st -> EmitsAt k m w st.
Proof.
  intros E. exists []. rewrite E, app_nil_r. split; [reflexivity | constructor].
Qed.

Lemma emits_ret (A : Type) (a : A) : Emits k (ret a).
Proof. intros w st. apply emitsAt_nothing. reflexivity. Qed.

Lemma emits_throw (A : Type) (e : JsError) : Emits k (@throw A e).
Proof. intros w st. apply emitsAt_nothing. reflexivity. Qed.

Lemma emits_imported_isRuChat : Emits k imported_isRuChat.
Proof. intros w st. apply emitsAt_nothing. reflexivity. Qed.

Lemma emits_call (A : Type) (e : Event)
  (answer : World -> list Event -> JsError + A) :
  k e = true -> Emits k (call e answer).
Proof.
  intros He w st. exists [e]. split; [reflexivity | repeat constructor; exact He].
Qed.

Lemma emits_report (ctx : Ctx) (err : JsError) (tag : jsstring) :
  k (EvReport err tag) = true -> Emits k (report ctx err tag).
Proof.
  intros He w st. exists [EvReport err tag].
  split; [reflexivity | repeat constructor; exact He].
Qed.

Lemma emits_console_info : k EvConsoleInfo = true -> Emits k console_info.
Proof.
  intros He w st. exists [EvConsoleInfo].
  split; [reflexivity | repeat constructor; exact He].
Qed.

Lemma emitsAt_bind (A B : Type) (m : M A) (f : A -> M B) (w : World)
  (st : State) :
  EmitsAt k m w st ->
  (forall a, snd (m w st) = inr a -> EmitsAt k (f a) w (fst (m w st))) ->
  EmitsAt k (bind m f) w st.
Proof.
  intros (new & E & F) Hf. unfold EmitsAt, bind.
  destruct (m w st) as [st' [e|a]] eqn:Em; cbn [fst snd] in *.
  - exists new. split; assumption.
  - destruct (Hf a eq_refl) as (more & E' & F').
    exists (new ++ more). split.
    + rewrite E', E, app_assoc. reflexivity.
    + apply Forall_app; split; assumption.
Qed.

Lemma emits_bind (A B : Type) (m : M A) (f : A -> M B) :
  Emits k m -> (forall a, Emits k (f a)) -> Emits k (bind m f).
Proof.
  intros Hm Hf w st. apply emitsAt_bind; [apply Hm | intros a _; apply Hf].
Qed.

Lemma emitsAt_try_catch (A : Type) (body : M A) (handler : JsError -> M A)
  (w : World) (st : State) :
  EmitsAt k body w st ->
  (forall e, Emits k (handler e)) ->
  EmitsAt k (try_catch body handler) w st.
Proof.
  intros (new & E & F) Hh. unfold EmitsAt, try_catch.
  destruct (body w st) as [st' [e|a]] eqn:Em; cbn [fst snd] in *.
  - destruct (Hh e w st') as (more & E' & F').
    exists (new ++ more). split.
    + rewrite E', E, app_assoc. reflexivity.
    + apply Forall_app; split; assumption.
  - exists new. split; assumption.
Qed.

Lemma emits_try_catch (A : Type) (body : M A) (handler : JsError -> M A) :
  Emits k body -> (forall e, Emits k (handler e)) ->
  Emits k (try_catch body handler).
Proof.
  intros Hb Hh w st. apply emitsAt_try_catch; [apply Hb | exact Hh].
Qed.

Lemma emits_try_catch_finally (A : Type) (body : M A)
  (handler : JsError -> M A) (finalizer : M unit) :
  Emits k body -> (forall e, Emits k (handler e)) -> Emits k finalizer ->
  Emits k (try_catch_finally body handler finalizer).
Proof.
  intros Hb Hh Hf w st.
  destruct (emits_try_catch A body handler Hb Hh w st) as (new & E & F).
  unfold EmitsAt, try_catch_finally.
  destruct (try_catch body handler w st) as [st1 r] eqn:Et; cbn [fst] in *.
  destruct (Hf w st1) as (more & E' & F').
  exists (new ++ more). split.
  - destruct (finalizer w st1) as [st2 [e|u]]; cbn [fst] in *;
      rewrite E', E, app_assoc; reflexivity.
  - apply Forall_app; split; assumption.
Qed.

Lemma emits_not_awaited (A : Type) (m : M A) :
  Emits k m -> Emits k (not_awaited m).
Proof.
  intros Hm w st. destruct (Hm w st) as (new & E & F).
  exists new. split; [|exact F].
  unfold not_awaited. destruct (m w st) as [st' [e|a]]; exact E.
Qed.

Lemma emits_for_of (A : Type) (l : list A) (body : A -> M unit) :
  (forall x, Emits k (body x)) -> Emits k (for_of l body).
Proof.
  intros Hb. induction l as [|x l IH]; cbn [for_of].
  - apply emits_ret.
  - apply emits_bind; [apply Hb | intros _; exact IH].
Qed.

End EmitsRules.

(** A computation that makes calls of one kind makes calls of any wider
    kind. *)
Lemma emits_weaken (A : Type) (k k' : Kind) (m : M A) :
  (forall e, k e = true -> k' e = true) -> Emits k m -> Emits k' m.
Proof.
  intros Hk Hm w st. destruct (Hm w st) as (new & E & F).
  exists new. split; [exact E|].
  eapply Forall_impl; [|exact F]. exact Hk.
Qed.

(** * More on the chunkers *)

Section MatchingKeeps.

Variable cls : codeunit -> bool.
Variable bound : nat.
Hypothesis bound_pos : 0 < bound.

Lemma filter_all (s : jsstring) :
  Forall (fun c => cls c = true) s -> filter cls s = s.
Proof.
  induction 1 as [|c s Hc _ IH]; simpl; [reflexivity|].
  rewrite Hc, IH. reflexivity.
Qed.

(** No match at the start of a subject means that its first character is
    outside the class. *)
Lemma greedy_nothing (c : codeunit) (s : jsstring) :
  fst (greedy cls bound (c :: s)) = [] -> cls c = false.
Proof.
  destruct bound as [|b] eqn:Eb; [lia|]. cbn [greedy].
  destruct (cls c); [|reflexivity].
  destruct (greedy cls b s); discriminate.
Qed.

(** What the chunks keep of the subject is its characters of the class, in
    order: the others are skipped. *)
Lemma matchAllFrom_keeps (fuel : nat) (s : jsstring) :
  length s <= fuel ->
  concat (matchAllFrom cls bound fuel s) = filter cls s.
Proof.
  revert s; induction fuel as [|fuel IH]; intros s Hlen.
  - destruct s; [reflexivity | simpl in Hlen; lia].
  - destruct s as [|c s]; [reflexivity|]. cbn [matchAllFrom].
    destruct (@greedy_split cls bound bound_pos bound (c :: s)) as (E & _ & F).
    pose proof (greedy_nothing c s) as Hnone.
    destruct (greedy cls bound (c :: s)) as [m rest]; cbn [fst snd] in *.
    destruct m as [|c' m].
    + rewrite IH by (simpl in Hlen; lia).
      cbn [filter]. rewrite (Hnone eq_refl). reflexivity.
    + cbn [concat]. rewrite IH.
      * rewrite E, filter_app, (filter_all _ F). reflexivity.
      * apply (f_equal (@length _)) in E.
        rewrite length_app in E. simpl in *. lia.
Qed.

(** A subject with a character of the class has a match. *)
Lemma matchAllFrom_some (fuel : nat) (s : jsstring) :
  length s <= fuel ->
  Exists (fun c => cls c = true) s ->
  matchAllFrom cls bound fuel s <> [].
Proof.
  intros Hlen Hex E.
  pose proof (matchAllFrom_keeps fuel s Hlen) as K.
  rewrite E in K. cbn [concat] in K.
  apply Exists_exists in Hex. destruct Hex as (c & Hin & Hc).
  assert (Hf : In c (filter cls s)) by (apply filter_In; split; assumption).
  rewrite <- K in Hf. exact Hf.
Qed.

End MatchingKeeps.

(** X1.  Both chunkers cut the text into non-empty pieces of at most 4000
    characters.  The pieces of the interactive chunker concatenate to the
    text; the pieces of the silent chunker concatenate to the text without
    its line terminators (LF, CR, U+2028, U+2029), which are skipped. *)
Theorem chunkers_keep (text : jsstring) :
  Forall (fun chunk => 1 <= length chunk <= 4000) (matchAll anyChar 4000 text)
  /\ Forall (fun chunk => 1 <= length chunk <= 4000) (matchAll dot 4000 text)
  /\ concat (matchAll anyChar 4000 text) = text
  /\ concat (matchAll dot 4000 text)
     = filter (fun c => negb (isLineTerminator c)) text.
Proof.
  assert (P : 0 < 4000) by lia.
  repeat split.
  - apply matchAllFrom_bounded; exact P.
  - apply matchAllFrom_bounded; exact P.
  - unfold matchAll. rewrite matchAllFrom_keeps by (exact P || lia).
    apply filter_all. apply Forall_forall. reflexivity.
  - unfold matchAll. rewrite matchAllFrom_keeps by (exact P || lia).
    reflexivity.
Qed.

(** * Delivery as a whole *)

(** Such a loop ends normally when the platform accepts every call. *)
Lemma for_of_calls_accepted (A : Type) (l : list A) (f : A -> Event)
  (answer : World -> list Event -> JsError + Message) (w : World) (st : State) :
  (forall log, exists m, answer w log = inr m) ->
  snd (for_of l (fun x => bind (call (f x) answer) (fun _ => ret tt)) w st)
  = inr tt.
Proof.
  intros Hok. revert st; induction l as [|x l IH]; intros st; [reflexivity|].
  cbn [for_of]. unfold bind at 1. unfold bind at 1. unfold call at 1.
  destruct (Hok (trace st ++ [f x])) as (m & Hm). rewrite Hm.
  cbn [ret]. apply IH.
Qed.

Lemma not_trimmed_is_dot (c : codeunit) : isTrimmed c = false -> dot c = true.
Proof.
  unfold isTrimmed, dot. intros H. apply orb_false_iff in H.
  destruct H as [_ H]. rewrite H. reflexivity.
Qed.

(** A formatted text that is not empty has a character that is not a line
    terminator: the colon of a timecode, or the first character of a trimmed
    text. *)
Lemma formatText_has_dot (chat : Chat) (segments : list Segment) :
  formatText chat segments <> [] ->
  Exists (fun c => dot c = true) (formatText chat segments).
Proof.
  unfold formatText. destruct (timecodesEnabled chat).
  - destruct segments as [|[label text] rest]; [intros H; exfalso; apply H; reflexivity|].
    intros _. unfold timecodedText. cbn [map fst snd].
    assert (Hcolon : Exists (fun c => dot c = true)
                       (label ++ str ":" ++ nl ++ text)).
    { apply Exists_app. right. left. reflexivity. }
    destruct rest as [|t rest]; cbn [map join]; [exact Hcolon|].
    apply Exists_app. left. exact Hcolon.
  - unfold plainText.
    destruct (filter truthy (map (fun t => trim (snd t)) segments))
      as [|piece rest] eqn:Ep; [intros H; exfalso; apply H; reflexivity|].
    intros _.
    assert (Hin : In piece (filter truthy (map (fun t => trim (snd t)) segments)))
      by (rewrite Ep; left; reflexivity).
    apply filter_In in Hin. destruct Hin as [Hin Hne].
    apply in_map_iff in Hin. destruct Hin as (t & Et & _).
    destruct (trim_is_Trimmed (snd t)) as (pre & post & _ & _ & _ & Hclean & _).
    rewrite Et in Hclean.
    destruct piece as [|c piece]; [discriminate|].
    destruct rest as [|piece' rest]; cbn [join app];
      left; apply not_trimmed_is_dot; exact Hclean.
Qed.

Lemma addPromo_has_dot (isRuChat : Chat -> bool) (ctx : Ctx) (chat : Chat)
  (text : jsstring) :
  Exists (fun c => dot c = true) text ->
  Exists (fun c => dot c = true) (addPromo isRuChat ctx chat text).
Proof.
  intros H. unfold addPromo.
  destruct (truthy text && _); [|exact H].
  apply Exists_app. left. exact H.
Qed.

(** X2.  Delivery of a formatted transcript never fails on its own: in
    either mode it ends normally whenever the platform accepts every call
    it is given (in silent mode the original message must be present).  In
    particular the chunk list is never [null]. *)
Theorem delivery_succeeds_when_platform_accepts (w : World) (ctx : Ctx)
  (msg message : Message) (chat : Chat) (segments : list Segment)
  (st : State) :
  (forall log, w_editMessageText w log = inr tt) ->
  (forall log, exists m, w_sendMessage w log = inr m) ->
  (forall log, exists m, w_reply w log = inr m) ->
  message_of ctx = Some message ->
  snd (updateMessagewithTranscription ctx msg (formatText chat segments) chat
         w st) = inr tt
  /\ snd (sendMessageWithTranscription ctx (formatText chat segments) chat
            w st) = inr tt.
Proof.
  intros Hedit Hsend Hreply Hmsg.
  set (text := formatText chat segments).
  set (display := addPromo (w_isRuChat w) ctx chat text).
  split.
  - destruct (Nat.le_gt_cases (length display) 4000) as [Hshort|Hlong].
    + rewrite update_short by exact Hshort.
      unfold editMessageText, call. rewrite Hedit. reflexivity.
    + rewrite update_long by exact Hlong.
      unfold bind at 1. unfold editMessageText, call at 1. rewrite Hedit.
      apply (for_of_calls_accepted _ _
               (fun chunk => EvReply chunk
                               (replying_to markdown_options (message_id msg)))
               w_reply).
      exact Hreply.
  - destruct display as [|c d] eqn:Ed.
    + rewrite (@send_empty w ctx text chat message st Hmsg Ed). reflexivity.
    + destruct (Nat.lt_ge_cases (length (c :: d)) 4000) as [Hshort|Hlong].
      * rewrite (@send_short w ctx text chat message st Hmsg).
        -- fold display. rewrite Ed. unfold bind, sendMessage, call.
           destruct (Hsend (trace st ++
                      [EvSendMessage (id chat) (c :: d)
                         (replying_to markdown_options (message_id message))]))
             as (m & Hm).
           rewrite Hm. reflexivity.
        -- fold display. rewrite Ed. discriminate.
        -- fold display. rewrite Ed. exact Hshort.
      * assert (Hdot : Exists (fun c => dot c = true) display).
        { apply addPromo_has_dot, formatText_has_dot.
          intros E. fold text in E. subst display.
          unfold addPromo in Ed. rewrite E in Ed. discriminate Ed. }
        assert (Hsome : matchAll dot 4000 display <> []).
        { apply matchAllFrom_some; [lia | lia | exact Hdot]. }
        unfold sendMessageWithTranscription, imported_isRuChat. rewrite Hmsg.
        unfold bind at 1. cbv beta iota zeta. fold text. fold display.
        rewrite Ed in *. cbn [truthy andb].
        apply Nat.ltb_ge in Hlong. rewrite Hlong.
        destruct (matchAll dot 4000 (c :: d)) as [|first chunks];
          [congruence|].
        unfold bind at 1. unfold sendMessage, call at 1.
        match goal with
        | |- context [w_sendMessage w ?log] =>
            destruct (Hsend log) as (m & Hm); rewrite Hm
        end.
        apply (for_of_calls_accepted _ _
                 (fun chunk =>
                    EvReply chunk
                      (replying_to
                         (replying_to markdown_options (message_id message))
                         (message_id m)))
                 w_reply).
        exact Hreply.
Qed.

(** X3.  In interactive mode a delivery that ends normally shows the whole
    display text, whatever its length: the placeholder is edited to the
    first piece, every further piece is a reply whose [reply_to_message_id]
    is the placeholder's message id, the pieces are non-empty, at most 4000
    characters long, and concatenate to the display text. *)
Theorem interactive_delivery_shows_display_text (w : World) (ctx : Ctx)
  (msg : Message) (text : jsstring) (chat : Chat) (st st' : State) :
  let display := addPromo (w_isRuChat w) ctx chat text in
  display <> [] ->
  updateMessagewithTranscription ctx msg text chat w st = (st', inr tt) ->
  exists first rest,
    trace st' =
      trace st
      ++ EvEditMessageText (msg_chat_id msg) (message_id msg) first
           {| parse_mode := Some (str "Markdown");
              disable_web_page_preview := Some true;
              reply_to_message_id := None |}
         :: map (fun chunk =>
                   EvReply chunk
                     {| parse_mode := Some (str "Markdown");
                        disable_web_page_preview := Some true;
                        reply_to_message_id := Some (message_id msg) |})
                rest
    /\ first ++ concat rest = display
    /\ Forall (fun chunk => 1 <= length chunk <= 4000) (first :: rest)
    /\ unhandled st' = unhandled st.
Proof.
  intros display Hne Hrun.
  exact (interactive_delivery_log w ctx msg text chat st st' Hne Hrun).
Qed.

(** X4.  In silent mode a delivery that ends normally sends the first piece
    with [reply_to_message_id] the id of the original message, and every
    further piece as a reply with [reply_to_message_id] the id of the
    message that the first send returned.  A display text shorter than 4000
    characters is sent whole; a longer one is sent without its line
    terminators, in pieces of at most 4000 characters. *)
Theorem silent_delivery_threads_on_first_piece (w : World) (ctx : Ctx)
  (message : Message) (text : jsstring) (chat : Chat) (st st' : State) :
  let display := addPromo (w_isRuChat w) ctx chat text in
  display <> [] ->
  message_of ctx = Some message ->
  sendMessageWithTranscription ctx text chat w st = (st', inr tt) ->
  exists first rest sent,
    w_sendMessage w
      (trace st
       ++ [EvSendMessage (id chat) first
             {| parse_mode := Some (str "Markdown");
                disable_web_page_preview := Some true;
                reply_to_message_id := Some (message_id message) |}])
    = inr sent
    /\ trace st' =
         trace st
         ++ EvSendMessage (id chat) first
              {| parse_mode := Some (str "Markdown");
                 disable_web_page_preview := Some true;
                 reply_to_message_id := Some (message_id message) |}
            :: map (fun chunk =>
                      EvReply chunk
                        {| parse_mode := Some (str "Markdown");
                           disable_web_page_preview := Some true;
                           reply_to_message_id := Some (message_id sent) |})
                   rest
    /\ first ++ concat rest
       = (if length display <? 4000 then display
          else filter (fun c => negb (isLineTerminator c)) display)
    /\ Forall (fun chunk => 1 <= length chunk <= 4000) (first :: rest).
Proof.
  intros display Hne Hmsg Hrun.
  set (options := replying_to markdown_options (message_id message)).
  assert (Hoptions :
            options = {| parse_mode := Some (str "Markdown");
                         disable_web_page_preview := Some true;
                         reply_to_message_id := Some (message_id message) |})
    by reflexivity.
  assert (Hthread : forall sent : Message,
            replying_to options (message_id sent)
            = {| parse_mode := Some (str "Markdown");
                 disable_web_page_preview := Some true;
                 reply_to_message_id := Some (message_id sent) |})
    by (intros sent; reflexivity).
  rewrite <- Hoptions.
  assert (Hpos : 0 < length display)
    by (destruct display; [congruence | simpl; lia]).
  destruct (Nat.lt_ge_cases (length display) 4000) as [Hshort|Hlong].
  - rewrite (@send_short w ctx text chat message st Hmsg Hne Hshort) in Hrun.
    fold display options in Hrun.
    unfold bind, sendMessage, call, ret in Hrun.
    destruct (w_sendMessage w _) as [e|sent] eqn:Hsent; [discriminate|].
    inversion Hrun; subst st'. cbn [trace].
    exists display, [], sent. cbn [map concat]. rewrite app_nil_r.
    apply Nat.ltb_lt in Hshort. rewrite Hshort.
    split; [exact Hsent|]. split; [reflexivity|]. split; [reflexivity|].
    apply Nat.ltb_lt in Hshort.
    constructor; [lia | constructor].
  - unfold sendMessageWithTranscription, imported_isRuChat in Hrun.
    rewrite Hmsg in Hrun. unfold bind at 1 in Hrun.
    cbv beta iota zeta in Hrun. fold display options in Hrun.
    assert (Ht : truthy display = true)
      by (destruct display; [congruence | reflexivity]).
    apply Nat.ltb_ge in Hlong. rewrite Ht, Hlong in Hrun. cbn [andb] in Hrun.
    pose proof (@matchAllFrom_keeps dot 4000 ltac:(lia) (length display)
                  display (Nat.le_refl _)) as Hkeep.
    pose proof (@matchAllFrom_bounded dot 4000 ltac:(lia) (length display)
                  display) as Hbound.
    fold (matchAll dot 4000 display) in Hkeep, Hbound.
    destruct (matchAll dot 4000 display) as [|first rest]; [discriminate|].
    unfold bind at 1 in Hrun. unfold sendMessage, call at 1 in Hrun.
    destruct (w_sendMessage w _) as [e|sent] eqn:Hsent; [discriminate|].
    apply (for_of_calls_done _ _
             (fun chunk => EvReply chunk
                             (replying_to options (message_id sent))))
      in Hrun.
    cbn [trace unhandled] in Hrun. destruct Hrun as [Htr _].
    exists first, rest, sent.
    split; [exact Hsent|].
    split; [rewrite Htr, <- app_assoc, <- (Hthread sent); reflexivity|].
    split; [rewrite Hlong; exact Hkeep | exact Hbound].
Qed.

(** * Failures *)

Lemma updateMessagewithError_run (w : World) (ctx : Ctx) (msg : Message)
  (chat : Chat) (error : JsError) (st : State) :
  updateMessagewithError ctx msg chat error w st
  = ({| trace := trace st ++ error_edit_log w ctx msg chat error (trace st);
        unhandled := unhandled st |}, inr tt).
Proof.
  unfold updateMessagewithError, try_catch, editMessageText, call, report,
    error_edit_log, error_edit, error_notice, error_options.
  cbv zeta. cbn [trace unhandled].
  destruct (error_message error) as [[|c m]|];
    destruct (is_google (engine chat));
    cbn [truthy_opt truthy];
    destruct (w_editMessageText w _) as [e|[]]; cbn [trace unhandled];
    rewrite <- ?app_assoc; reflexivity.
Qed.

(** X5.  [updateMessagewithError] never throws.  It makes one edit of the
    placeholder; if the platform rejects the edit, the rejection is reported
    under the tag "updateMessagewithError" and goes no further.  The notice
    is the localized generic error text; only for the engine ['google'] is
    the error's message appended as a code block, or "Unknown error" when
    the error has no message or an empty one. *)
Theorem error_notice_is_edited_and_contained (w : World) (ctx : Ctx)
  (msg : Message) (chat : Chat) (error : JsError) (st : State) :
  let generic := i18n_t ctx (str "error") in
  let detail :=
    match error_message error with
    | Some (c :: m) => c :: m
    | _ => str "Unknown error"
    end in
  let notice :=
    if is_google (engine chat)
    then generic ++ nl ++ nl ++ str "``` " ++ detail ++ str "```"
    else generic in
  let edit :=
    EvEditMessageText (msg_chat_id msg) (message_id msg) notice
      {| parse_mode := Some (str "Markdown");
         disable_web_page_preview := None;
         reply_to_message_id := None |} in
  updateMessagewithError ctx msg chat error w st
  = ({| trace :=
          trace st ++ edit
          :: match w_editMessageText w (trace st ++ [edit]) with
             | inl err => [EvReport err (str "updateMessagewithError")]
             | inr _ => []
             end;
        unhandled := unhandled st |}, inr tt).
Proof.
  cbv zeta. rewrite updateMessagewithError_run. reflexivity.
Qed.

(** The interactive path past the credential gate, once the placeholder is
    sent: the [try] block, its handler and its [finally]. *)
Lemma sendTranscription_try (w : World) (ctx : Ctx) (url : jsstring)
  (chat : Chat) (fileId : jsstring) (message sent : Message) :
  missing_google_key chat = false ->
  message_of ctx = Some message ->
  w_replyWithMarkdown w [placeholder_event ctx message] = inr sent ->
  run w (sendTranscription ctx url chat fileId)
  = try_catch_finally
      (bind (urlToText url (sanitizeChat chat)) (fun r =>
         bind (updateMessagewithTranscription ctx sent
                 (formatText chat (textWithTimecodes r)) chat)
           (fun _ =>
              addVoice url (plainText (textWithTimecodes r)) chat (duration r)
                (textWithTimecodes r) fileId)))
      (fun err =>
         bind (updateMessagewithError ctx sent chat err)
           (fun _ => report ctx err (str "sendTranscription")))
      console_info w
      {| trace := [placeholder_event ctx message]; unhandled := [] |}.
Proof.
  intros Hgate Hmsg Hsent.
  unfold run, sendTranscription. rewrite Hmsg.
  unfold bind at 1.
  unfold sendVoiceRecognitionMessage, replyWithMarkdown, call at 1, initial.
  cbn [trace unhandled app]. fold (placeholder_event ctx message).
  rewrite Hsent, Hgate. reflexivity.
Qed.

(** The handler of that [try] block. *)
Lemma interactive_handler_run (w : World) (ctx : Ctx) (sent : Message)
  (chat : Chat) (err : JsError) (st : State) :
  bind (updateMessagewithError ctx sent chat err)
    (fun _ => report ctx err (str "sendTranscription")) w st
  = ({| trace :=
          trace st ++ error_edit_log w ctx sent chat err (trace st)
          ++ [EvReport err (str "sendTranscription")];
        unhandled := unhandled st |}, inr tt).
Proof.
  unfold bind. rewrite updateMessagewithError_run. unfold report.
  cbn [trace unhandled]. rewrite <- app_assoc. reflexivity.
Qed.

(** X6.  When the engine fails in interactive mode, the placeholder is
    edited to the error notice, the failure is reported under the tag
    "sendTranscription", nothing is stored, and the function returns
    normally. *)
Theorem interactive_engine_failure (w : World) (ctx : Ctx) (url : jsstring)
  (chat : Chat) (fileId : jsstring) (message sent : Message) (err : JsError) :
  let engine_call := EvUrlToText url (sanitizeChat chat) in
  let log := [placeholder_event ctx message; engine_call] in
  missing_google_key chat = false ->
  message_of ctx = Some message ->
  w_replyWithMarkdown w [placeholder_event ctx message] = inr sent ->
  w_urlToText w log = inl err ->
  run w (sendTranscription ctx url chat fileId)
  = ({| trace :=
          log ++ error_edit_log w ctx sent chat err log
          ++ [EvReport err (str "sendTranscription"); EvConsoleInfo];
        unhandled := [] |}, inr tt).
Proof.
  intros engine_call log Hgate Hmsg Hsent Hfail. subst engine_call log.
  rewrite (sendTranscription_try w ctx url chat fileId message sent
             Hgate Hmsg Hsent).
  unfold try_catch_finally, try_catch.
  unfold bind at 1. unfold urlToText, call at 1.
  cbn [trace unhandled app]. rewrite Hfail.
  rewrite interactive_handler_run. unfold console_info.
  cbn [trace unhandled app]. rewrite <- !app_assoc. reflexivity.
Qed.

(** X7.  When delivery fails in interactive mode (the platform rejects the
    edit or a reply), the transcription is not stored: the handler tries to
    edit the placeholder to the error notice and reports the failure. *)
Theorem interactive_delivery_failure (w : World) (ctx : Ctx) (url : jsstring)
  (chat : Chat) (fileId : jsstring) (message sent : Message)
  (r : Transcription) (err : JsError) (st1 : State) :
  let engine_call := EvUrlToText url (sanitizeChat chat) in
  missing_google_key chat = false ->
  message_of ctx = Some message ->
  w_replyWithMarkdown w [placeholder_event ctx message] = inr sent ->
  w_urlToText w [placeholder_event ctx message; engine_call] = inr r ->
  updateMessagewithTranscription ctx sent
    (formatText chat (textWithTimecodes r)) chat w
    {| trace := [placeholder_event ctx message; engine_call];
       unhandled := [] |} = (st1, inl err) ->
  run w (sendTranscription ctx url chat fileId)
  = ({| trace :=
          trace st1 ++ error_edit_log w ctx sent chat err (trace st1)
          ++ [EvReport err (str "sendTranscription"); EvConsoleInfo];
        unhandled := unhandled st1 |}, inr tt).
Proof.
  intros engine_call Hgate Hmsg Hsent Hengine Hdeliver. subst engine_call.
  rewrite (sendTranscription_try w ctx url chat fileId message sent
             Hgate Hmsg Hsent).
  unfold try_catch_finally, try_catch.
  unfold bind at 1. unfold urlToText, call at 1.
  cbn [trace unhandled app]. rewrite Hengine.
  unfold bind at 1. rewrite Hdeliver.
  rewrite interactive_handler_run. unfold console_info.
  cbn [trace unhandled app]. rewrite <- !app_assoc. reflexivity.
Qed.

(** X8.  When storing the record fails in interactive mode, the
    transcription has already been delivered; the handler then edits the
    placeholder again, to the error notice, and reports the failure. *)
Theorem interactive_persistence_failure (w : World) (ctx : Ctx)
  (url : jsstring) (chat : Chat) (fileId : jsstring) (message sent : Message)
  (r : Transcription) (err : JsError) (st1 : State) :
  let engine_call := EvUrlToText url (sanitizeChat chat) in
  let record :=
    EvAddVoice url (plainText (textWithTimecodes r)) chat (duration r)
      (textWithTimecodes r) fileId in
  missing_google_key chat = false ->
  message_of ctx = Some message ->
  w_replyWithMarkdown w [placeholder_event ctx message] = inr sent ->
  w_urlToText w [placeholder_event ctx message; engine_call] = inr r ->
  updateMessagewithTranscription ctx sent
    (formatText chat (textWithTimecodes r)) chat w
    {| trace := [placeholder_event ctx message; engine_call];
       unhandled := [] |} = (st1, inr tt) ->
  w_addVoice w (trace st1 ++ [record]) = inl err ->
  run w (sendTranscription ctx url chat fileId)
  = ({| trace :=
          trace st1 ++ record
          :: error_edit_log w ctx sent chat err (trace st1 ++ [record])
          ++ [EvReport err (str "sendTranscription"); EvConsoleInfo];
        unhandled := unhandled st1 |}, inr tt).
Proof.
  intros engine_call record Hgate Hmsg Hsent Hengine Hdeliver Hstore.
  subst engine_call record.
  rewrite (sendTranscription_try w ctx url chat fileId message sent
             Hgate Hmsg Hsent).
  unfold try_catch_finally, try_catch.
  unfold bind at 1. unfold urlToText, call at 1.
  cbn [trace unhandled app]. rewrite Hengine.
  unfold bind at 1. rewrite Hdeliver.
  unfold addVoice, call at 1. rewrite Hstore.
  rewrite interactive_handler_run. unfold console_info.
  cbn [trace unhandled app]. rewrite <- !app_assoc. reflexivity.
Qed.

(** The silent path past the credential gate, once the typing action is
    shown: the [try] block, its handler and its [finally]. *)
Lemma sendAction_try (w : World) (ctx : Ctx) (url : jsstring) (chat : Chat)
  (fileId : jsstring) :
  missing_google_key chat = false ->
  w_replyWithChatAction w [EvReplyWithChatAction (str "typing")] = inr tt ->
  run w (sendAction ctx url chat fileId)
  = try_catch_finally
      (bind (urlToText url (sanitizeChat chat)) (fun r =>
         bind (sendMessageWithTranscription ctx
                 (formatText chat (textWithTimecodes r)) chat)
           (fun _ =>
              addVoice url (plainText (textWithTimecodes r)) chat (duration r)
                (textWithTimecodes r) fileId)))
      (fun err => report ctx err (str "sendTranscription.silent"))
      console_info w
      {| trace := [EvReplyWithChatAction (str "typing")]; unhandled := [] |}.
Proof.
  intros Hgate Htyping.
  unfold run, sendAction.
  unfold bind at 1. unfold replyWithChatAction, call at 1, initial.
  cbn [trace unhandled app]. rewrite Htyping, Hgate. reflexivity.
Qed.

(** X9.  In silent mode a failure of the engine or of delivery sends
    nothing more to the chat and stores nothing: it is reported once, under
    the tag "sendTranscription.silent", and the function returns normally. *)
Theorem silent_failure_is_only_reported (w : World) (ctx : Ctx)
  (url : jsstring) (chat : Chat) (fileId : jsstring) (err : JsError) :
  let typing := EvReplyWithChatAction (str "typing") in
  let engine_call := EvUrlToText url (sanitizeChat chat) in
  let reported :=
    [EvReport err (str "sendTranscription.silent"); EvConsoleInfo] in
  missing_google_key chat = false ->
  w_replyWithChatAction w [typing] = inr tt ->
  (w_urlToText w [typing; engine_call] = inl err ->
   run w (sendAction ctx url chat fileId)
   = ({| trace := [typing; engine_call] ++ reported; unhandled := [] |},
      inr tt))
  /\ (forall r st1,
        w_urlToText w [typing; engine_call] = inr r ->
        sendMessageWithTranscription ctx
          (formatText chat (textWithTimecodes r)) chat w
          {| trace := [typing; engine_call]; unhandled := [] |}
        = (st1, inl err) ->
        run w (sendAction ctx url chat fileId)
        = ({| trace := trace st1 ++ reported; unhandled := unhandled st1 |},
           inr tt)).
Proof.
  intros typing engine_call reported Hgate Htyping.
  subst typing engine_call reported. split.
  - intros Hfail.
    rewrite (sendAction_try w ctx url chat fileId Hgate Htyping).
    unfold try_catch_finally, try_catch.
    unfold bind at 1. unfold urlToText, call at 1.
    cbn [trace unhandled app]. rewrite Hfail. reflexivity.
  - intros r st1 Hengine Hdeliver.
    rewrite (sendAction_try w ctx url chat fileId Hgate Htyping).
    unfold try_catch_finally, try_catch.
    unfold bind at 1. unfold urlToText, call at 1.
    cbn [trace unhandled app]. rewrite Hengine.
    unfold bind at 1. rewrite Hdeliver.
    unfold report, console_info. cbn [trace unhandled].
    rewrite <- app_assoc. reflexivity.
Qed.

(** X10.  When the first feedback to the chat fails (the placeholder in
    interactive mode, the typing action in silent mode), the function throws
    that failure to its caller at once: the engine is not called and nothing
    else is sent. *)
Theorem first_feedback_failure_stops_the_mode (w : World) (ctx : Ctx)
  (url : jsstring) (chat : Chat) (fileId : jsstring) (message : Message)
  (err : JsError) :
  let typing := EvReplyWithChatAction (str "typing") in
  message_of ctx = Some message ->
  (w_replyWithMarkdown w [placeholder_event ctx message] = inl err ->
   run w (sendTranscription ctx url chat fileId)
   = ({| trace := [placeholder_event ctx message]; unhandled := [] |},
      inl err))
  /\ (w_replyWithChatAction w [typing] = inl err ->
      run w (sendAction ctx url chat fileId)
      = ({| trace := [typing]; unhandled := [] |}, inl err)).
Proof.
  intros typing Hmsg. subst typing. split; intros Hfail.
  - unfold run, sendTranscription. rewrite Hmsg.
    unfold bind at 1.
    unfold sendVoiceRecognitionMessage, replyWithMarkdown, call at 1, initial.
    cbn [trace unhandled app]. fold (placeholder_event ctx message).
    rewrite Hfail. reflexivity.
  - unfold run, sendAction.
    unfold bind at 1. unfold replyWithChatAction, call at 1, initial.
    cbn [trace unhandled app]. rewrite Hfail. reflexivity.
Qed.

(** * The entry point, past the size gate *)

(** Below the size gate the handler resolves the file and its URL and runs
    the function of the chat's mode, reporting what that function throws
    under the name of the function. *)
Lemma handleMessage_dispatch (w : World) (ctx : Ctx) (chat : Chat)
  (message : Message) (v : Attachment) (fileData : FileData) (url : jsstring) :
  let lookup := EvFindChat (ctx_chat_id ctx) in
  let resolve := EvGetFile (file_id v) in
  let locate := EvFileUrl (file_path fileData) in
  w_findChat w [lookup] = inr chat ->
  message_of ctx = Some message ->
  voice_of message = Some v ->
  too_large v = false ->
  w_getFile w [lookup; resolve] = inr fileData ->
  w_fileUrl w [lookup; resolve; locate] = inr url ->
  run w (handleMessage ctx)
  = (if silent chat
     then try_catch (sendAction ctx url chat (file_id v))
            (fun err => report ctx err (str "sendAction"))
     else try_catch (sendTranscription ctx url chat (file_id v))
            (fun err => report ctx err (str "sendTranscription")))
      w {| trace := [lookup; resolve; locate]; unhandled := [] |}.
Proof.
  intros lookup resolve locate Hchat Hmsg Hvoice Hsmall Hfile Hurl.
  subst lookup resolve locate.
  unfold run, handleMessage.
  unfold try_catch at 1. unfold bind at 1. unfold findChat, call at 1, initial.
  cbn [trace unhandled app]. rewrite Hchat, Hmsg, Hvoice, Hsmall.
  unfold bind at 1. unfold getFile, call at 1.
  cbn [trace unhandled app]. rewrite Hfile.
  unfold bind at 1. unfold fileUrl, call at 1.
  cbn [trace unhandled app]. rewrite Hurl.
  destruct (silent chat); unfold try_catch, report;
    match goal with
    | |- context [match ?m w ?s with _ => _ end] =>
        destruct (m w s) as [st' [e|[]]]
    end; reflexivity.
Qed.

(** X11.  A failure before delivery starts is reported under the tag
    "handleMessage" and ends the request: a failed chat lookup, a message
    without any attachment, a failed file lookup.  Nothing is sent to the
    chat and the engine is not called. *)
Theorem early_failure_is_reported_as_handleMessage (w : World) (ctx : Ctx) :
  let lookup := EvFindChat (ctx_chat_id ctx) in
  let tag := str "handleMessage" in
  (forall err,
     w_findChat w [lookup] = inl err ->
     run w (handleMessage ctx)
     = ({| trace := [lookup; EvReport err tag]; unhandled := [] |}, inr tt))
  /\ (forall chat,
        w_findChat w [lookup] = inr chat ->
        (message_of ctx = None
         \/ exists message,
              message_of ctx = Some message /\ voice_of message = None) ->
        run w (handleMessage ctx)
        = ({| trace := [lookup; EvReport TypeError tag]; unhandled := [] |},
           inr tt))
  /\ (forall chat message v err,
        w_findChat w [lookup] = inr chat ->
        message_of ctx = Some message ->
        voice_of message = Some v ->
        too_large v = false ->
        w_getFile w [lookup; EvGetFile (file_id v)] = inl err ->
        run w (handleMessage ctx)
        = ({| trace := [lookup; EvGetFile (file_id v); EvReport err tag];
              unhandled := [] |}, inr tt)).
Proof.
  intros lookup tag. subst lookup tag. repeat split.
  - intros err Hfail.
    unfold run, handleMessage, try_catch, bind, findChat, call, initial.
    cbn [trace unhandled app]. rewrite Hfail. reflexivity.
  - intros chat Hchat Hnone.
    unfold run, handleMessage, try_catch, bind, findChat, call, initial.
    cbn [trace unhandled app]. rewrite Hchat.
    destruct Hnone as [Hmsg|(message & Hmsg & Hvoice)].
    + rewrite Hmsg. reflexivity.
    + rewrite Hmsg, Hvoice. reflexivity.
  - intros chat message v err Hchat Hmsg Hvoice Hsmall Hfail.
    unfold run, handleMessage, try_catch.
    unfold bind at 1. unfold findChat, call at 1, initial.
    cbn [trace unhandled app]. rewrite Hchat, Hmsg, Hvoice, Hsmall.
    unfold bind at 1. unfold getFile, call at 1.
    cbn [trace unhandled app]. rewrite Hfail. reflexivity.
Qed.

(** * What each function calls *)

(** Decomposes a goal [Emits k m] along the structure of [m]; [side] proves
    that the kind contains a given call. *)
Ltac emits_with side :=
  unfold findChat, getFile, fileUrl, replyWithMarkdown, replyWithChatAction,
    urlToText, editMessageText, sendMessage, reply, addVoice,
    sendLargeFileError, sendVoiceRecognitionMessage;
  repeat first
    [ apply emits_ret
    | apply emits_throw
    | apply emits_imported_isRuChat
    | apply emits_call; side
    | apply emits_report; side
    | apply emits_console_info; side
    | apply emits_try_catch_finally; [| intros ? |]
    | apply emits_try_catch; [| intros ? ]
    | apply emits_not_awaited
    | apply emits_for_of; intros ?
    | apply emits_bind; [| intros ? ]
    | match goal with
      | |- Emits _ (if ?b then _ else _) => destruct b
      | |- Emits _ (match ?x with _ => _ end) => destruct x
      end
    | progress cbv zeta ].

Lemma emits_update (k : Kind) (ctx : Ctx) (msg : Message) (text : jsstring)
  (chat : Chat) :
  (forall e, edit_or_reply e = true -> k e = true) ->
  Emits k (updateMessagewithTranscription ctx msg text chat).
Proof.
  intros Hk. unfold updateMessagewithTranscription.
  emits_with ltac:(apply Hk; reflexivity).
Qed.

Lemma emits_send (k : Kind) (ctx : Ctx) (text : jsstring) (chat : Chat) :
  (forall e, send_or_reply e = true -> k e = true) ->
  Emits k (sendMessageWithTranscription ctx text chat).
Proof.
  intros Hk. unfold sendMessageWithTranscription.
  emits_with ltac:(apply Hk; reflexivity).
Qed.

Lemma emits_error (k : Kind) (ctx : Ctx) (msg : Message) (chat : Chat)
  (error : JsError) :
  (forall e, (edit_or_reply e || is_report e) = true -> k e = true) ->
  Emits k (updateMessagewithError ctx msg chat error).
Proof.
  intros Hk. unfold updateMessagewithError.
  emits_with ltac:(apply Hk; reflexivity).
Qed.

(** The function of interactive mode shows no typing action and never calls
    [sendMessage]. *)
Lemma emits_sendTranscription (ctx : Ctx) (url : jsstring) (chat : Chat)
  (fileId : jsstring) :
  Emits interactive_mode_call (sendTranscription ctx url chat fileId).
Proof.
  unfold sendTranscription, updateWithGoogleKeyError.
  emits_with ltac:(reflexivity);
    first [ apply emits_update | apply emits_error ];
    intros [] H; try discriminate H; reflexivity.
Qed.

(** The function of silent mode posts no placeholder and no notice, and
    never edits a message. *)
Lemma emits_sendAction (ctx : Ctx) (url : jsstring) (chat : Chat)
  (fileId : jsstring) :
  Emits silent_mode_call (sendAction ctx url chat fileId).
Proof.
  unfold sendAction.
  emits_with ltac:(reflexivity);
    apply emits_send; intros [] H; try discriminate H; reflexivity.
Qed.

(** X12.  The mode of the chat decides what a request may call, whatever
    fails on the way.  A request to a silent chat never posts a placeholder
    or a notice and never edits a message; a request to an interactive chat
    never shows the typing action and never calls [sendMessage]. *)
Theorem mode_decides_the_calls (w : World) (ctx : Ctx) (chat : Chat) :
  w_findChat w [EvFindChat (ctx_chat_id ctx)] = inr chat ->
  Forall (fun e =>
            (if silent chat then silent_mode_call e
             else interactive_mode_call e) = true)
         (trace (fst (run w (handleMessage ctx)))).
Proof.
  intros Hchat.
  set (k := fun e => if silent chat then silent_mode_call e
                     else interactive_mode_call e).
  assert (Hreport : forall err tag, k (EvReport err tag) = true)
    by (intros; unfold k; destruct (silent chat); reflexivity).
  assert (H : EmitsAt k (handleMessage ctx) w initial).
  { unfold handleMessage.
    apply emitsAt_try_catch; [|intros e; apply emits_report, Hreport].
    apply emitsAt_bind.
    - apply emits_call. unfold k. destruct (silent chat); reflexivity.
    - intros a Ha. unfold findChat, call in Ha. cbn [snd trace app initial] in Ha.
      rewrite Hchat in Ha. inversion Ha; subst a. clear Ha.
      match goal with |- EmitsAt _ ?m _ ?s => generalize s; intros s0 end.
      revert w s0 Hchat. intros w s0 _. revert w s0.
      change (Emits k
        (match message_of ctx with
         | None => throw TypeError
         | Some message =>
             match voice_of message with
             | None => throw TypeError
             | Some voice =>
                 if too_large voice then
                   if negb (silent chat) then
                     bind (sendLargeFileError ctx message) (fun _ => ret tt)
                   else ret tt
                 else
                   bind (getFile (file_id voice)) (fun fileData =>
                   bind (fileUrl (file_path fileData)) (fun voiceUrl =>
                   if silent chat then
                     try_catch (sendAction ctx voiceUrl chat (file_id voice))
                       (fun err => report ctx err (str "sendAction"))
                   else
                     try_catch
                       (sendTranscription ctx voiceUrl chat (file_id voice))
                       (fun err => report ctx err (str "sendTranscription"))))
             end
         end)).
      unfold k. destruct (silent chat); cbn [negb].
      + destruct (message_of ctx) as [message|]; [|apply emits_throw].
        destruct (voice_of message) as [v|]; [|apply emits_throw].
        destruct (too_large v); [apply emits_ret|].
        apply emits_bind; [apply emits_call; reflexivity | intros fileData].
        apply emits_bind; [apply emits_call; reflexivity | intros url].
        apply emits_try_catch;
          [apply emits_sendAction | intros e; apply emits_report; reflexivity].
      + destruct (message_of ctx) as [message|]; [|apply emits_throw].
        destruct (voice_of message) as [v|]; [|apply emits_throw].
        destruct (too_large v).
        * apply emits_bind; [apply emits_call; reflexivity | intros _].
          apply emits_ret.
        * apply emits_bind; [apply emits_call; reflexivity | intros fileData].
          apply emits_bind; [apply emits_call; reflexivity | intros url].
          apply emits_try_catch;
            [apply emits_sendTranscription
            | intros e; apply emits_report; reflexivity]. }
  destruct H as (new & E & F). unfold run. rewrite E. exact F.
Qed.

(** * Calls made at most once *)

Section OnceRules.

Variable k : Kind.
Variable C : Event -> Prop.

Lemma atMostOnce_after (before log : list Event) :
  Forall (fun e => others k e = true) before ->
  AtMostOnce k C log -> AtMostOnce k C (before ++ log).
Proof.
  intros Hb [Hq|(b & e & a & E & He & HC & Fb & Fa)].
  - left. apply Forall_app; split; assumption.
  - right. exists (before ++ b), e, a. rewrite E, app_assoc.
    repeat split; try assumption. apply Forall_app; split; assumption.
Qed.

Lemma atMostOnce_before (log after : list Event) :
  AtMostOnce k C log ->
  Forall (fun e => others k e = true) after ->
  AtMostOnce k C (log ++ after).
Proof.
  intros [Hq|(b & e & a & E & He & HC & Fb & Fa)] Ha.
  - left. apply Forall_app; split; assumption.
  - right. exists b, e, (a ++ after). rewrite E, <- app_assoc.
    repeat split; try assumption. apply Forall_app; split; assumption.
Qed.

Lemma filter_others (log : list Event) :
  Forall (fun e => others k e = true) log -> filter k log = [].
Proof.
  induction 1 as [|e log He _ IH]; [reflexivity|].
  cbn [filter]. unfold others in He. apply negb_true_iff in He.
  rewrite He. exact IH.
Qed.

(** What such a log says about the calls of the kind. *)
Lemma atMostOnce_sound (log : list Event) :
  AtMostOnce k C log ->
  length (filter k log) <= 1
  /\ (forall e, In e log -> k e = true -> C e).
Proof.
  intros [Hq|(b & e & a & E & He & HC & Fb & Fa)].
  - split.
    + rewrite (filter_others log Hq). simpl. lia.
    + intros e Hin Hk. rewrite Forall_forall in Hq.
      specialize (Hq e Hin). unfold others in Hq. rewrite Hk in Hq.
      discriminate Hq.
  - subst log. split.
    + rewrite filter_app. cbn [filter]. rewrite He.
      rewrite (filter_others b Fb), (filter_others a Fa). simpl. lia.
    + intros e' Hin Hk. apply in_app_or in Hin.
      rewrite Forall_forall in Fb, Fa.
      destruct Hin as [Hin|[Heq|Hin]].
      * specialize (Fb e' Hin). unfold others in Fb. rewrite Hk in Fb.
        discriminate Fb.
      * subst e'. exact HC.
      * specialize (Fa e' Hin). unfold others in Fa. rewrite Hk in Fa.
        discriminate Fa.
Qed.

Lemma once_quiet (A : Type) (m : M A) (w : World) (st : State) :
  EmitsAt (others k) m w st -> OnceAt k C m w st.
Proof.
  intros (new & E & F). exists new. split; [exact E | left; exact F].
Qed.

Lemma once_call (A : Type) (e : Event)
  (answer : World -> list Event -> JsError + A) (w : World) (st : State) :
  k e = true -> C e -> OnceAt k C (call e answer) w st.
Proof.
  intros He HC. exists [e]. split; [reflexivity|].
  right. exists [], e, []. repeat split; try assumption; constructor.
Qed.

Lemma once_bind (A B : Type) (m : M A) (f : A -> M B) (w : World)
  (st : State) :
  EmitsAt (others k) m w st ->
  (forall a, snd (m w st) = inr a -> OnceAt k C (f a) w (fst (m w st))) ->
  OnceAt k C (bind m f) w st.
Proof.
  intros (new & E & F) Hf. unfold OnceAt, bind.
  destruct (m w st) as [st' [e|a]] eqn:Em; cbn [fst snd] in *.
  - exists new. split; [exact E | left; exact F].
  - destruct (Hf a eq_refl) as (more & E' & G).
    exists (new ++ more). split.
    + rewrite E', E, app_assoc. reflexivity.
    + apply atMostOnce_after; assumption.
Qed.

Lemma once_then_quiet (A B : Type) (m : M A) (f : A -> M B) (w : World)
  (st : State) :
  OnceAt k C m w st ->
  (forall a, Emits (others k) (f a)) ->
  OnceAt k C (bind m f) w st.
Proof.
  intros (new & E & G) Hf. unfold OnceAt, bind.
  destruct (m w st) as [st' [e|a]] eqn:Em; cbn [fst snd] in *.
  - exists new. split; assumption.
  - destruct (Hf a w st') as (more & E' & F').
    exists (new ++ more). split.
    + rewrite E', E, app_assoc. reflexivity.
    + apply atMostOnce_before; assumption.
Qed.

Lemma once_try_catch (A : Type) (body : M A) (handler : JsError -> M A)
  (w : World) (st : State) :
  OnceAt k C body w st ->
  (forall e, Emits (others k) (handler e)) ->
  OnceAt k C (try_catch body handler) w st.
Proof.
  intros (new & E & G) Hh. unfold OnceAt, try_catch.
  destruct (body w st) as [st' [e|a]] eqn:Em; cbn [fst snd] in *.
  - destruct (Hh e w st') as (more & E' & F').
    exists (new ++ more). split.
    + rewrite E', E, app_assoc. reflexivity.
    + apply atMostOnce_before; assumption.
  - exists new. split; assumption.
Qed.

Lemma once_try_catch_finally (A : Type) (body : M A)
  (handler : JsError -> M A) (finalizer : M unit) (w : World) (st : State) :
  OnceAt k C body w st ->
  (forall e, Emits (others k) (handler e)) ->
  Emits (others k) finalizer ->
  OnceAt k C (try_catch_finally body handler finalizer) w st.
Proof.
  intros Hb Hh Hf.
  destruct (once_try_catch A body handler w st Hb Hh) as (new & E & G).
  unfold OnceAt, try_catch_finally.
  destruct (try_catch body handler w st) as [st1 r]; cbn [fst] in *.
  destruct (Hf w st1) as (more & E' & F').
  exists (new ++ more). split.
  - destruct (finalizer w st1) as [st2 [e|u]]; cbn [fst] in *;
      rewrite E', E, app_assoc; reflexivity.
  - apply atMostOnce_before; assumption.
Qed.

End OnceRules.

Lemma delivery_is_not_engine (e : Event) :
  (edit_or_reply e || send_or_reply e || is_report e) = true ->
  others is_engine_call e = true.
Proof. destruct e; intros H; try discriminate H; reflexivity. Qed.

(** X13.  Whatever the collaborators do, one request calls the engine at
    most once, and only behind both gates: when the chat was found, the
    message has an attachment that is not too large, and the chat does not
    select ['google'] without a key.  The engine is given the sanitized
    chat. *)
Theorem engine_is_called_once_behind_the_gates (w : World) (ctx : Ctx) :
  let log := trace (fst (run w (handleMessage ctx))) in
  engine_calls log <= 1
  /\ (forall url c,
        In (EvUrlToText url c) log ->
        exists chat message v,
          w_findChat w [EvFindChat (ctx_chat_id ctx)] = inr chat
          /\ message_of ctx = Some message
          /\ voice_of message = Some v
          /\ too_large v = false
          /\ missing_google_key chat = false
          /\ c = sanitizeChat chat).
Proof.
  set (C := fun e =>
    exists url chat message v,
      e = EvUrlToText url (sanitizeChat chat)
      /\ w_findChat w [EvFindChat (ctx_chat_id ctx)] = inr chat
      /\ message_of ctx = Some message
      /\ voice_of message = Some v
      /\ too_large v = false
      /\ missing_google_key chat = false).
  assert (H : OnceAt is_engine_call C (handleMessage ctx) w initial).
  { unfold handleMessage.
    apply once_try_catch; [|intros e; apply emits_report; reflexivity].
    apply once_bind; [apply emits_call; reflexivity|].
    intros chat Hchat. unfold findChat, call in Hchat.
    cbn [snd trace app initial] in Hchat.
    match goal with |- OnceAt _ _ _ _ ?s => generalize s; intros s0 end.
    destruct (message_of ctx) as [message|] eqn:Hmsg;
      [|apply once_quiet, emits_throw].
    destruct (voice_of message) as [v|] eqn:Hvoice;
      [|apply once_quiet, emits_throw].
    destruct (too_large v) eqn:Hsmall.
    { apply once_quiet. destruct (negb (silent chat)); [|apply emits_ret].
      apply emits_bind; [apply emits_call; reflexivity | intros _; apply emits_ret]. }
    apply once_bind; [apply emits_call; reflexivity | intros fileData _].
    apply once_bind; [apply emits_call; reflexivity | intros url _].
    match goal with |- OnceAt _ _ _ _ ?s => generalize s; intros s1 end.
    assert (Hcall : C (EvUrlToText url (sanitizeChat chat)) \/
                    missing_google_key chat = true).
    { destruct (missing_google_key chat) eqn:Hkey; [right; reflexivity|].
      left. exists url, chat, message, v. repeat split; assumption. }
    destruct (silent chat).
    - apply once_try_catch; [|intros e; apply emits_report; reflexivity].
      unfold sendAction.
      apply once_bind; [apply emits_call; reflexivity | intros _ _].
      cbv zeta.
      destruct (missing_google_key chat); [apply once_quiet, emits_ret|].
      destruct Hcall as [Hcall|Hcall]; [|discriminate Hcall].
      apply once_try_catch_finally;
        [| intros e; apply emits_report; reflexivity
         | apply emits_console_info; reflexivity].
      apply once_then_quiet; [apply once_call; [reflexivity | exact Hcall]|].
      intros r. apply emits_bind.
      + apply emits_send. intros e He. apply delivery_is_not_engine.
        rewrite He. destruct (edit_or_reply e); reflexivity.
      + intros _. apply emits_call. reflexivity.
    - apply once_try_catch; [|intros e; apply emits_report; reflexivity].
      unfold sendTranscription. rewrite Hmsg.
      apply once_bind; [apply emits_call; reflexivity | intros sent _].
      cbv zeta.
      destruct (missing_google_key chat).
      { apply once_quiet. apply emits_not_awaited, emits_update.
        intros e He. apply delivery_is_not_engine. rewrite He. reflexivity. }
      destruct Hcall as [Hcall|Hcall]; [|discriminate Hcall].
      apply once_try_catch_finally;
        [| | apply emits_console_info; reflexivity].
      + apply once_then_quiet; [apply once_call; [reflexivity | exact Hcall]|].
        intros r. apply emits_bind.
        * apply emits_update. intros e He. apply delivery_is_not_engine.
          rewrite He. reflexivity.
        * intros _. apply emits_call. reflexivity.
      + intros e. apply emits_bind.
        * apply emits_error. intros e' He. apply delivery_is_not_engine.
          destruct (edit_or_reply e'), (is_report e'), (send_or_reply e');
            try reflexivity; discriminate He.
        * intros _. apply emits_report. reflexivity. }
  destruct H as (new & E & G). apply atMostOnce_sound in G.
  destruct G as [Hcount Hwhich].
  cbv zeta. unfold run. rewrite E. cbn [trace initial app].
  split; [exact Hcount|].
  intros url c Hin.
  destruct (Hwhich _ Hin eq_refl)
    as (url' & chat & message & v & Ee & Hchat & Hmsg & Hvoice & Hsmall & Hkey).
  inversion Ee; subst.
  exists chat, message, v. repeat split; assumption.
Qed.

Lemma delivery_is_not_record (e : Event) :
  (edit_or_reply e || send_or_reply e || is_report e) = true ->
  others is_record e = true.
Proof. destruct e; intros H; try discriminate H; reflexivity. Qed.

Section OnceFromRules.

Variable k : Kind.
Variable C : list Event -> Event -> Prop.

Lemma onceIn_after (log0 quiet new : list Event) :
  Forall (fun e => others k e = true) quiet ->
  OnceIn k C (log0 ++ quiet) new -> OnceIn k C log0 (quiet ++ new).
Proof.
  intros Hq [Hn|(b & e & a & E & He & HC & Fb & Fa)].
  - left. apply Forall_app; split; assumption.
  - right. exists (quiet ++ b), e, a. rewrite E, app_assoc.
    repeat split; try assumption.
    + rewrite app_assoc. exact HC.
    + apply Forall_app; split; assumption.
Qed.

Lemma onceIn_before (log0 new quiet : list Event) :
  OnceIn k C log0 new ->
  Forall (fun e => others k e = true) quiet ->
  OnceIn k C log0 (new ++ quiet).
Proof.
  intros [Hn|(b & e & a & E & He & HC & Fb & Fa)] Hq.
  - left. apply Forall_app; split; assumption.
  - right. exists b, e, (a ++ quiet). rewrite E, <- app_assoc.
    repeat split; try assumption. apply Forall_app; split; assumption.
Qed.

(** What such a log says about the calls of the kind. *)
Lemma onceIn_sound (log0 new : list Event) :
  OnceIn k C log0 new ->
  length (filter k new) <= 1
  /\ (forall e, In e new -> k e = true ->
       exists before after,
         new = before ++ e :: after /\ C (log0 ++ before) e).
Proof.
  intros [Hq|(b & e & a & E & He & HC & Fb & Fa)].
  - split.
    + rewrite (filter_others k new Hq). simpl. lia.
    + intros e Hin Hk. rewrite Forall_forall in Hq.
      specialize (Hq e Hin). unfold others in Hq. rewrite Hk in Hq.
      discriminate Hq.
  - subst new. split.
    + rewrite filter_app. cbn [filter]. rewrite He.
      rewrite (filter_others k b Fb), (filter_others k a Fa). simpl. lia.
    + intros e' Hin Hk. apply in_app_or in Hin.
      rewrite Forall_forall in Fb, Fa.
      destruct Hin as [Hin|[Heq|Hin]].
      * specialize (Fb e' Hin). unfold others in Fb. rewrite Hk in Fb.
        discriminate Fb.
      * subst e'. exists b, a. split; [reflexivity | exact HC].
      * specialize (Fa e' Hin). unfold others in Fa. rewrite Hk in Fa.
        discriminate Fa.
Qed.

Lemma from_quiet (A : Type) (m : M A) (w : World) (st : State) :
  EmitsAt (others k) m w st -> OnceFrom k C m w st.
Proof.
  intros (new & E & F). exists new. split; [exact E | left; exact F].
Qed.

Lemma from_call (A : Type) (e : Event)
  (answer : World -> list Event -> JsError + A) (w : World) (st : State) :
  k e = true -> C (trace st) e -> OnceFrom k C (call e answer) w st.
Proof.
  intros He HC. exists [e]. split; [reflexivity|].
  right. exists [], e, []. rewrite app_nil_r.
  repeat split; try assumption; constructor.
Qed.

Lemma from_bind (A B : Type) (m : M A) (f : A -> M B) (w : World)
  (st : State) :
  EmitsAt (others k) m w st ->
  (forall a, snd (m w st) = inr a -> OnceFrom k C (f a) w (fst (m w st))) ->
  OnceFrom k C (bind m f) w st.
Proof.
  intros (new & E & F) Hf. unfold OnceFrom, bind.
  destruct (m w st) as [st' [e|a]] eqn:Em; cbn [fst snd] in *.
  - exists new. split; [exact E | left; exact F].
  - destruct (Hf a eq_refl) as (more & E' & G).
    exists (new ++ more). split.
    + rewrite E', E, app_assoc. reflexivity.
    + apply onceIn_after; [exact F|]. rewrite <- E. exact G.
Qed.

Lemma from_try_catch (A : Type) (body : M A) (handler : JsError -> M A)
  (w : World) (st : State) :
  OnceFrom k C body w st ->
  (forall e, Emits (others k) (handler e)) ->
  OnceFrom k C (try_catch body handler) w st.
Proof.
  intros (new & E & G) Hh. unfold OnceFrom, try_catch.
  destruct (body w st) as [st' [e|a]] eqn:Em; cbn [fst snd] in *.
  - destruct (Hh e w st') as (more & E' & F').
    exists (new ++ more). split.
    + rewrite E', E, app_assoc. reflexivity.
    + apply onceIn_before; assumption.
  - exists new. split; assumption.
Qed.

Lemma from_try_catch_finally (A : Type) (body : M A)
  (handler : JsError -> M A) (finalizer : M unit) (w : World) (st : State) :
  OnceFrom k C body w st ->
  (forall e, Emits (others k) (handler e)) ->
  Emits (others k) finalizer ->
  OnceFrom k C (try_catch_finally body handler finalizer) w st.
Proof.
  intros Hb Hh Hf.
  destruct (from_try_catch A body handler w st Hb Hh) as (new & E & G).
  unfold OnceFrom, try_catch_finally.
  destruct (try_catch body handler w st) as [st1 r]; cbn [fst] in *.
  destruct (Hf w st1) as (more & E' & F').
  exists (new ++ more). split.
  - destruct (finalizer w st1) as [st2 [e|u]]; cbn [fst] in *;
      rewrite E', E, app_assoc; reflexivity.
  - apply onceIn_before; assumption.
Qed.

End OnceFromRules.

(** The step that stores the record, after the engine answered [r] in state
    [st] and the transcript was delivered by [deliver]. *)
Lemma record_after_delivery (w : World) (ctx : Ctx) (url : jsstring)
  (chat : Chat) (fileId : jsstring) (r : Transcription) (deliver : M unit)
  (st : State) :
  w_findChat w [EvFindChat (ctx_chat_id ctx)] = inr chat ->
  w_urlToText w (trace st ++ [EvUrlToText url (sanitizeChat chat)]) = inr r ->
  Emits (fun e => others is_record e && others is_engine_call e) deliver ->
  OnceFrom is_record (stored_from_engine w ctx)
    (bind deliver (fun _ =>
       addVoice url (plainText (textWithTimecodes r)) chat (duration r)
         (textWithTimecodes r) fileId))
    w (fst (urlToText url (sanitizeChat chat) w st)).
Proof.
  intros Hchat Hr Hd.
  set (st_e := fst (urlToText url (sanitizeChat chat) w st)).
  destruct (Hd w st_e) as (new & E & F).
  apply from_bind.
  - exists new. split; [exact E|].
    eapply Forall_impl; [|exact F].
    intros e He. apply andb_true_iff in He. apply He.
  - intros _ _. apply from_call; [reflexivity|].
    exists url, chat, fileId, (trace st), new, r.
    repeat split; try assumption.
    rewrite E. unfold st_e, urlToText, call. cbn [fst trace].
    rewrite <- app_assoc. reflexivity.
Qed.

(** X14.  Whatever the collaborators do, one request stores at most one
    voice record, and the record comes from the engine call of that very
    request: the log holds, before the record, a call of the engine for the
    record's URL and the sanitized chat; the world answered that call, at
    that point of the log, with the segments and the duration the record
    stores; its chat is the chat that was looked up; and its aggregate text
    is the text without timecodes of those segments. *)
Theorem record_is_stored_once_from_the_engine (w : World) (ctx : Ctx) :
  let log := trace (fst (run w (handleMessage ctx))) in
  length (filter is_record log) <= 1
  /\ (forall url text chat d segments fileId,
        In (EvAddVoice url text chat d segments fileId) log ->
        exists earlier between after r,
          log = earlier ++ EvUrlToText url (sanitizeChat chat)
                :: between
                ++ EvAddVoice url text chat d segments fileId :: after
          /\ w_urlToText w (earlier ++ [EvUrlToText url (sanitizeChat chat)])
             = inr r
          /\ segments = textWithTimecodes r
          /\ d = duration r
          /\ text = plainText segments
          /\ w_findChat w [EvFindChat (ctx_chat_id ctx)] = inr chat).
Proof.
  assert (H : OnceFrom is_record (stored_from_engine w ctx)
                (handleMessage ctx) w initial).
  { unfold handleMessage.
    apply from_try_catch; [|intros e; apply emits_report; reflexivity].
    apply from_bind; [apply emits_call; reflexivity|].
    intros chat Hchat. unfold findChat, call in Hchat.
    cbn [snd trace app initial] in Hchat.
    match goal with |- OnceFrom _ _ _ _ ?s => generalize s; intros s0 end.
    destruct (message_of ctx) as [message|] eqn:Hmsg;
      [|apply from_quiet, emits_throw].
    destruct (voice_of message) as [v|] eqn:Hvoice;
      [|apply from_quiet, emits_throw].
    destruct (too_large v) eqn:Hsmall.
    { apply from_quiet. destruct (negb (silent chat)); [|apply emits_ret].
      apply emits_bind; [apply emits_call; reflexivity | intros _; apply emits_ret]. }
    apply from_bind; [apply emits_call; reflexivity | intros fileData _].
    apply from_bind; [apply emits_call; reflexivity | intros url _].
    match goal with |- OnceFrom _ _ _ _ ?s => generalize s; intros s1 end.
    destruct (silent chat).
    - apply from_try_catch; [|intros e; apply emits_report; reflexivity].
      unfold sendAction.
      apply from_bind; [apply emits_call; reflexivity | intros _ _].
      cbv zeta.
      match goal with |- OnceFrom _ _ _ _ ?s => generalize s; intros s2 end.
      destruct (missing_google_key chat); [apply from_quiet, emits_ret|].
      apply from_try_catch_finally;
        [| intros e; apply emits_report; reflexivity
         | apply emits_console_info; reflexivity].
      apply from_bind; [apply emits_call; reflexivity | intros r Hr].
      unfold urlToText, call in Hr. cbn [snd] in Hr.
      apply record_after_delivery; [exact Hchat | exact Hr|].
      apply emits_send. intros e He. destruct e; try discriminate He; reflexivity.
    - apply from_try_catch; [|intros e; apply emits_report; reflexivity].
      unfold sendTranscription. rewrite Hmsg.
      apply from_bind; [apply emits_call; reflexivity | intros sent _].
      cbv zeta.
      match goal with |- OnceFrom _ _ _ _ ?s => generalize s; intros s2 end.
      destruct (missing_google_key chat).
      { apply from_quiet. apply emits_not_awaited, emits_update.
        intros e He. apply delivery_is_not_record. rewrite He. reflexivity. }
      apply from_try_catch_finally;
        [| | apply emits_console_info; reflexivity].
      + apply from_bind; [apply emits_call; reflexivity | intros r Hr].
        unfold urlToText, call in Hr. cbn [snd] in Hr.
        apply record_after_delivery; [exact Hchat | exact Hr|].
        apply emits_update. intros e He.
        destruct e; try discriminate He; reflexivity.
      + intros e. apply emits_bind.
        * apply emits_error. intros e' He. apply delivery_is_not_record.
          destruct (edit_or_reply e'), (is_report e'), (send_or_reply e');
            try reflexivity; discriminate He.
        * intros _. apply emits_report. reflexivity. }
  destruct H as (new & E & G). apply onceIn_sound in G.
  destruct G as [Hcount Hwhich].
  cbv zeta. unfold run. rewrite E. cbn [trace initial app] in *.
  split; [exact Hcount|].
  intros url text chat d segments fileId Hin.
  destruct (Hwhich _ Hin eq_refl)
    as (before & after & Enew
        & url' & chat' & fileId' & earlier & between & r
        & Ee & Ebefore & Hr & Hchat).
  inversion Ee; subst.
  exists earlier, between, after, r.
  repeat split; try assumption.
  rewrite Enew, <- app_assoc. reflexivity.
Qed.

(** * Rejections nobody handles *)

Lemma settled_ret (A : Type) (a : A) : Settled (ret a).
Proof. intros w st. reflexivity. Qed.

Lemma settled_throw (A : Type) (e : JsError) : Settled (@throw A e).
Proof. intros w st. reflexivity. Qed.

Lemma settled_call (A : Type) (e : Event)
  (answer : World -> list Event -> JsError + A) : Settled (call e answer).
Proof. intros w st. reflexivity. Qed.

Lemma settled_report (ctx : Ctx) (err : JsError) (tag : jsstring) :
  Settled (report ctx err tag).
Proof. intros w st. reflexivity. Qed.

Lemma settled_bind (A B : Type) (m : M A) (f : A -> M B) :
  Settled m -> (forall a, Settled (f a)) -> Settled (bind m f).
Proof.
  intros Hm Hf w st. unfold SettledAt, bind.
  specialize (Hm w st). unfold SettledAt in Hm.
  destruct (m w st) as [st' [e|a]]; cbn [fst] in *; [exact Hm|].
  rewrite (Hf a w st'). exact Hm.
Qed.

Lemma settled_try_catch (A : Type) (body : M A) (handler : JsError -> M A) :
  Settled body -> (forall e, Settled (handler e)) ->
  Settled (try_catch body handler).
Proof.
  intros Hb Hh w st. unfold SettledAt, try_catch.
  specialize (Hb w st). unfold SettledAt in Hb.
  destruct (body w st) as [st' [e|a]]; cbn [fst] in *; [|exact Hb].
  rewrite (Hh e w st'). exact Hb.
Qed.

Lemma settled_try_catch_finally (A : Type) (body : M A)
  (handler : JsError -> M A) (finalizer : M unit) :
  Settled body -> (forall e, Settled (handler e)) -> Settled finalizer ->
  Settled (try_catch_finally body handler finalizer).
Proof.
  intros Hb Hh Hf w st.
  pose proof (settled_try_catch A body handler Hb Hh w st) as Ht.
  unfold SettledAt, try_catch_finally in *.
  destruct (try_catch body handler w st) as [st1 r]; cbn [fst] in *.
  specialize (Hf w st1). unfold SettledAt in Hf.
  destruct (finalizer w st1) as [st2 [e|u]]; cbn [fst] in *;
    rewrite Hf; exact Ht.
Qed.

Lemma settled_for_of (A : Type) (l : list A) (body : A -> M unit) :
  (forall x, Settled (body x)) -> Settled (for_of l body).
Proof.
  intros Hb. induction l as [|x l IH]; cbn [for_of].
  - apply settled_ret.
  - apply settled_bind; [apply Hb | intros _; exact IH].
Qed.

(** Decomposes a goal [Settled m] along the structure of [m]. *)
Ltac settled :=
  unfold findChat, getFile, fileUrl, replyWithMarkdown, replyWithChatAction,
    urlToText, editMessageText, sendMessage, reply, addVoice,
    sendLargeFileError, sendVoiceRecognitionMessage;
  repeat first
    [ apply settled_ret
    | apply settled_throw
    | apply settled_call
    | apply settled_report
    | apply settled_try_catch_finally; [| intros ? |]
    | apply settled_try_catch; [| intros ? ]
    | apply settled_for_of; intros ?
    | apply settled_bind; [| intros ? ]
    | match goal with
      | |- Settled (if ?b then _ else _) => destruct b
      | |- Settled (match ?x with _ => _ end) => destruct x
      | |- Settled imported_isRuChat => intros ? ?; reflexivity
      | |- Settled console_info => intros ? ?; reflexivity
      end
    | progress cbv zeta ].

Lemma settled_update (ctx : Ctx) (msg : Message) (text : jsstring)
  (chat : Chat) :
  Settled (updateMessagewithTranscription ctx msg text chat).
Proof. unfold updateMessagewithTranscription. settled. Qed.

Lemma settled_sendAction (ctx : Ctx) (url : jsstring) (chat : Chat)
  (fileId : jsstring) :
  Settled (sendAction ctx url chat fileId).
Proof.
  unfold sendAction, sendMessageWithTranscription. settled.
Qed.

(** Past the credential gate the interactive path awaits everything. *)
Lemma settled_interactive_try (ctx : Ctx) (url : jsstring) (chat : Chat)
  (fileId : jsstring) (sent : Message) :
  Settled
    (try_catch_finally
       (bind (urlToText url (sanitizeChat chat)) (fun r =>
          bind (updateMessagewithTranscription ctx sent
                  (formatText chat (textWithTimecodes r)) chat)
            (fun _ =>
               addVoice url (plainText (textWithTimecodes r)) chat (duration r)
                 (textWithTimecodes r) fileId)))
       (fun err =>
          bind (updateMessagewithError ctx sent chat err)
            (fun _ => report ctx err (str "sendTranscription")))
       console_info).
Proof.
  apply settled_try_catch_finally.
  - apply settled_bind; [apply settled_call | intros r].
    apply settled_bind; [apply settled_update | intros _; apply settled_call].
  - intros e. apply settled_bind; [|intros _; apply settled_report].
    unfold updateMessagewithError. settled.
  - intros w st. reflexivity.
Qed.

Section LeavesRules.

Variable Q : Prop.

Lemma leaves_settled (A : Type) (m : M A) (w : World) (st : State) :
  SettledAt m w st -> LeavesAt Q m w st.
Proof. intros H. left. exact H. Qed.

Lemma leaves_bind (A B : Type) (m : M A) (f : A -> M B) (w : World)
  (st : State) :
  SettledAt m w st ->
  (forall a, snd (m w st) = inr a -> LeavesAt Q (f a) w (fst (m w st))) ->
  LeavesAt Q (bind m f) w st.
Proof.
  intros Hm Hf. unfold LeavesAt, SettledAt, bind in *.
  destruct (m w st) as [st' [e|a]]; cbn [fst snd] in *; [left; exact Hm|].
  destruct (Hf a eq_refl) as [H|(HQ & err & H)].
  - left. rewrite H. exact Hm.
  - right. split; [exact HQ|]. exists err. rewrite H, Hm. reflexivity.
Qed.

Lemma leaves_try_catch (A : Type) (body : M A) (handler : JsError -> M A)
  (w : World) (st : State) :
  LeavesAt Q body w st ->
  (forall e, Settled (handler e)) ->
  LeavesAt Q (try_catch body handler) w st.
Proof.
  intros Hb Hh. unfold LeavesAt, try_catch in *.
  destruct (body w st) as [st' [e|a]]; cbn [fst] in *; [|exact Hb].
  pose proof (Hh e w st') as Hs. unfold SettledAt in Hs.
  destruct Hb as [Hb|(HQ & err & Hb)].
  - left. rewrite Hs. exact Hb.
  - right. split; [exact HQ|]. exists err. rewrite Hs. exact Hb.
Qed.

Lemma leaves_not_awaited (A : Type) (m : M A) (w : World) (st : State) :
  Q -> SettledAt m w st -> LeavesAt Q (not_awaited m) w st.
Proof.
  intros HQ Hm. unfold LeavesAt, SettledAt, not_awaited in *.
  destruct (m w st) as [st' [e|a]]; cbn [fst unhandled] in *.
  - right. split; [exact HQ|]. exists e. rewrite Hm. reflexivity.
  - left. exact Hm.
Qed.

End LeavesRules.

(** X15.  The entry point never throws, and it awaits everything it starts
    but for one call: a rejection can be left unhandled only in an
    interactive chat that selects ['google'] without a key (the edit of the
    placeholder to the credential notice), and then there is exactly one. *)
Theorem only_the_credential_notice_is_not_awaited (w : World) (ctx : Ctx) :
  let final := fst (run w (handleMessage ctx)) in
  snd (run w (handleMessage ctx)) = inr tt
  /\ (unhandled final = []
      \/ exists chat err,
           w_findChat w [EvFindChat (ctx_chat_id ctx)] = inr chat
           /\ silent chat = false
           /\ missing_google_key chat = true
           /\ unhandled final = [err]).
Proof.
  cbv zeta. split; [apply handleMessage_never_throws|].
  set (Q := exists chat,
              w_findChat w [EvFindChat (ctx_chat_id ctx)] = inr chat
              /\ silent chat = false /\ missing_google_key chat = true).
  assert (H : LeavesAt Q (handleMessage ctx) w initial).
  { unfold handleMessage.
    apply leaves_try_catch; [|intros e; apply settled_report].
    apply leaves_bind; [apply settled_call|].
    intros chat Hchat. unfold findChat, call in Hchat.
    cbn [snd trace app initial] in Hchat.
    match goal with |- LeavesAt _ _ _ ?s => generalize s; intros s0 end.
    destruct (message_of ctx) as [message|] eqn:Hmsg;
      [|apply leaves_settled, settled_throw].
    destruct (voice_of message) as [v|];
      [|apply leaves_settled, settled_throw].
    destruct (too_large v).
    { apply leaves_settled. destruct (negb (silent chat)); settled. }
    apply leaves_bind; [apply settled_call | intros fileData _].
    apply leaves_bind; [apply settled_call | intros url _].
    match goal with |- LeavesAt _ _ _ ?s => generalize s; intros s1 end.
    destruct (silent chat) eqn:Hsilent.
    - apply leaves_settled. apply settled_try_catch;
        [apply settled_sendAction | intros e; apply settled_report].
    - apply leaves_try_catch; [|intros e; apply settled_report].
      unfold sendTranscription. rewrite Hmsg.
      apply leaves_bind; [apply settled_call | intros sent _].
      cbv zeta. destruct (missing_google_key chat) eqn:Hkey.
      + unfold updateWithGoogleKeyError. apply leaves_not_awaited.
        * exists chat. repeat split; assumption.
        * apply settled_update.
      + apply leaves_settled. apply settled_interactive_try. }
  unfold run. destruct H as [H|((chat & Hchat & Hsilent & Hkey) & err & H)].
  - left. exact H.
  - right. exists chat, err. repeat split; assumption.
Qed.

(** * More on the formatter *)

Lemma join_app (sep : jsstring) (l1 l2 : list jsstring) :
  l1 <> [] -> l2 <> [] ->
  join sep (l1 ++ l2) = join sep l1 ++ sep ++ join sep l2.
Proof.
  intros H1 H2. induction l1 as [|x l1 IH]; [congruence|].
  destruct l1 as [|y l1].
  - cbn [app join]. destruct l2; [congruence | reflexivity].
  - change ((x :: y :: l1) ++ l2) with (x :: ((y :: l1) ++ l2)).
    cbn [join]. change ((y :: l1) ++ l2) with (y :: (l1 ++ l2)).
    change (y :: (l1 ++ l2)) with ((y :: l1) ++ l2).
    rewrite IH by discriminate.
    cbn [join]. rewrite <- !app_assoc. reflexivity.
Qed.

(** A joined text of non-empty pieces is empty only when there is none. *)
Lemma join_nil (sep : jsstring) (l : list jsstring) :
  Forall (fun piece => piece <> []) l -> join sep l = [] -> l = [].
Proof.
  intros F E. destruct l as [|x l]; [reflexivity|].
  inversion F as [|? ? Hx _]; subst. cbn [join] in E.
  destruct l; [congruence|].
  apply app_eq_nil in E. destruct E as [E _]. congruence.
Qed.

Lemma plainText_nil (segments : list Segment) :
  plainText segments = [] <-> pieces segments = [].
Proof.
  unfold plainText. fold (pieces segments). split.
  - apply join_nil. apply filter_truthy_nonempty.
  - intros E. rewrite E. reflexivity.
Qed.

(** X16.  Formatting composes over the concatenation of two runs of
    segments: the formatted texts of the two runs are put together with the
    separator between them (". " without timecodes, a newline with
    timecodes), and without it when one side contributes nothing. *)
Theorem formatting_composes (a b : list Segment) :
  plainText (a ++ b)
  = match plainText a, plainText b with
    | [], tb => tb
    | ta, [] => ta
    | ta, tb => ta ++ str ". " ++ tb
    end
  /\ timecodedText (a ++ b)
     = match a, b with
       | [], _ => timecodedText b
       | _, [] => timecodedText a
       | _, _ => timecodedText a ++ nl ++ timecodedText b
       end.
Proof.
  split.
  - assert (Hp : pieces (a ++ b) = pieces a ++ pieces b)
      by (unfold pieces; rewrite map_app, filter_app; reflexivity).
    destruct (plainText a) as [|ca ta] eqn:Ea.
    + apply (proj1 (plainText_nil a)) in Ea.
      unfold plainText. fold (pieces (a ++ b)).
      rewrite Hp, Ea. reflexivity.
    + destruct (plainText b) as [|cb tb] eqn:Eb.
      * apply (proj1 (plainText_nil b)) in Eb. rewrite <- Ea.
        unfold plainText. fold (pieces (a ++ b)) (pieces a).
        rewrite Hp, Eb, app_nil_r. reflexivity.
      * rewrite <- Ea, <- Eb. unfold plainText.
        fold (pieces (a ++ b)) (pieces a) (pieces b). rewrite Hp.
        apply join_app.
        -- intros E. apply (proj2 (plainText_nil a)) in E.
           rewrite E in Ea. discriminate Ea.
        -- intros E. apply (proj2 (plainText_nil b)) in E.
           rewrite E in Eb. discriminate Eb.
  - destruct a as [|ta a]; [reflexivity|].
    destruct b as [|tb b]; [rewrite app_nil_r; reflexivity|].
    unfold timecodedText. rewrite map_app.
    apply join_app; discriminate.
Qed.

Lemma dropWhile_nil (p : codeunit -> bool) (s : jsstring) :
  dropWhile p s = [] <-> Forall (fun c => p c = true) s.
Proof.
  induction s as [|c s IH]; cbn [dropWhile].
  - split; [constructor | reflexivity].
  - destruct (p c) eqn:Hc.
    + rewrite IH. split.
      * intros F. constructor; assumption.
      * intros F. inversion F; assumption.
    + split; [discriminate|].
      intros F. inversion F; congruence.
Qed.

(** A text trims to nothing exactly when it is white space only. *)
Lemma trim_nil (s : jsstring) :
  trim s = [] <-> Forall (fun c => isTrimmed c = true) s.
Proof.
  unfold trim, trimEnd, trimStart. split.
  - intros E.
    apply (f_equal (@rev _)) in E. rewrite rev_involutive in E. cbn [rev] in E.
    apply dropWhile_nil in E. apply Forall_rev in E.
    rewrite rev_involutive in E.
    destruct (dropWhile_split isTrimmed s) as (pre & Es & Fpre & _).
    rewrite Es. apply Forall_app. split; assumption.
  - intros F.
    assert (E : dropWhile isTrimmed s = []) by (apply dropWhile_nil; exact F).
    rewrite E. reflexivity.
Qed.

Lemma pieces_nil (segments : list Segment) :
  pieces segments = []
  <-> Forall (fun t => Forall (fun c => isTrimmed c = true) (snd t)) segments.
Proof.
  unfold pieces. induction segments as [|t segments IH]; cbn [map filter].
  - split; [constructor | reflexivity].
  - destruct (trim (snd t)) as [|c u] eqn:Et; cbn [truthy].
    + rewrite IH. split.
      * intros F. constructor; [apply trim_nil; exact Et | exact F].
      * intros F. inversion F; assumption.
    + split; [discriminate|].
      intros F. inversion F as [|? ? Ht _]; subst.
      apply (proj2 (trim_nil (snd t))) in Ht.
      rewrite Ht in Et. discriminate Et.
Qed.

(** X17.  The display text is empty exactly when there is nothing to show:
    with timecodes, when the engine returned no segment; without timecodes,
    when every segment text is white space only.  Interactive delivery then
    edits the placeholder to the localized "speak_clearly" text, without
    promo, in every chat. *)
Theorem nothing_to_show_falls_back (w : World) (ctx : Ctx) (msg : Message)
  (chat : Chat) (segments : list Segment) (st : State) :
  let display :=
    addPromo (w_isRuChat w) ctx chat (formatText chat segments) in
  (display = [] <->
   if timecodesEnabled chat then segments = []
   else Forall (fun t => Forall (fun c => isTrimmed c = true) (snd t))
          segments)
  /\ (display = [] ->
      updateMessagewithTranscription ctx msg (formatText chat segments) chat
        w st
      = editMessageText (msg_chat_id msg) (message_id msg)
          (i18n_t ctx (str "speak_clearly")) markdown_options w st).
Proof.
  intros display. split.
  - assert (Hd : display = [] <-> formatText chat segments = []).
    { split; [apply addPromo_empty|].
      intros E. subst display. rewrite E. reflexivity. }
    rewrite Hd. unfold formatText. destruct (timecodesEnabled chat).
    + split.
      * intros E. destruct segments as [|[label text] rest]; [reflexivity|].
        exfalso. unfold timecodedText in E.
        destruct rest as [|t rest]; cbn [map join fst snd] in E.
        -- apply app_eq_nil in E. destruct E as [_ E]. discriminate E.
        -- apply app_eq_nil in E. destruct E as [E _].
           apply app_eq_nil in E. destruct E as [_ E]. discriminate E.
      * intros E. rewrite E. reflexivity.
    + rewrite plainText_nil. apply pieces_nil.
  - intros E. rewrite update_short by (fold display; rewrite E; simpl; lia).
    fold display. rewrite E. reflexivity.
Qed.

(** * Boundaries *)

Lemma promoTexts_length (key : PromoKey) : length (promoTexts key) = 54.
Proof. destruct key; reflexivity. Qed.

(** X18.  In a chat outside the promo-exemption set the promo costs 55
    characters (the newline and the 54 of the promo text), so 3945 is the
    longest transcript that interactive mode delivers with the single edit
    of the placeholder: a longer one needs replies as well. *)
Theorem promo_costs_55_characters (w : World) (ctx : Ctx) (msg : Message)
  (chat : Chat) (text : jsstring) (st st' : State) :
  text <> [] ->
  includes promoExceptions (ctx_chat_id ctx) = false ->
  updateMessagewithTranscription ctx msg text chat w st = (st', inr tt) ->
  length (addPromo (w_isRuChat w) ctx chat text) = length text + 55
  /\ (length (trace st') = length (trace st) + 1 <-> length text <= 3945).
Proof.
  intros Hne Hplain Hrun.
  assert (Hlen : length (addPromo (w_isRuChat w) ctx chat text)
                 = length text + 55).
  { unfold addPromo. rewrite Hplain.
    destruct text as [|c text]; [congruence|]. cbn [truthy negb andb].
    rewrite !length_app, promoTexts_length. cbn [length nl]. lia. }
  split; [exact Hlen|].
  set (display := addPromo (w_isRuChat w) ctx chat text) in *.
  destruct (Nat.le_gt_cases (length display) 4000) as [Hshort|Hlong].
  - rewrite update_short in Hrun by exact Hshort.
    unfold editMessageText, call in Hrun.
    destruct (w_editMessageText w _) as [e|[]]; [discriminate|].
    inversion Hrun; subst st'. cbn [trace].
    rewrite length_app. cbn [length]. split; intros; lia.
  - rewrite update_long in Hrun by exact Hlong. fold display in Hrun.
    unfold bind at 1 in Hrun. unfold editMessageText, call at 1 in Hrun.
    destruct (w_editMessageText w _) as [e|[]]; [discriminate|].
    apply (for_of_calls_done _ _
             (fun chunk => EvReply chunk
                             (replying_to markdown_options (message_id msg))))
      in Hrun.
    cbn [trace unhandled] in Hrun. destruct Hrun as [Ht _].
    rewrite matchAll_anyChar_unfold in Ht
      by (apply nonempty_of_length; rewrite length_skipn; lia).
    rewrite Ht, !length_app. cbn [map length]. split; intros; lia.
Qed.

Lemma small_is_not_too_large (v : Attachment) :
  (file_size v = None
   \/ exists n, file_size v = Some n /\ (n < 19 * 1024 * 1024)%Z) ->
  too_large v = false.
Proof.
  unfold too_large. intros [E|(n & E & Hn)]; rewrite E; [reflexivity|].
  apply andb_false_iff. right. apply Z.leb_gt. exact Hn.
Qed.

(** X19.  An attachment whose size is unknown, or below 19 * 1024 * 1024
    bytes, passes the size gate: the call that follows the chat lookup is
    the lookup of the attachment's file. *)
Theorem smaller_attachment_passes_the_gate (w : World) (ctx : Ctx)
  (chat : Chat) (message : Message) (v : Attachment) :
  w_findChat w [EvFindChat (ctx_chat_id ctx)] = inr chat ->
  message_of ctx = Some message ->
  voice_of message = Some v ->
  (file_size v = None
   \/ exists n, file_size v = Some n /\ (n < 19 * 1024 * 1024)%Z) ->
  exists rest,
    trace (fst (run w (handleMessage ctx)))
    = EvFindChat (ctx_chat_id ctx) :: EvGetFile (file_id v) :: rest.
Proof.
  intros Hchat Hmsg Hvoice Hsize.
  pose proof (small_is_not_too_large v Hsize) as Hsmall.
  destruct (w_getFile w [EvFindChat (ctx_chat_id ctx); EvGetFile (file_id v)])
    as [err|fileData] eqn:Hfile.
  - eexists.
    unfold run, handleMessage, try_catch.
    unfold bind at 1. unfold findChat, call at 1, initial.
    cbn [trace unhandled app]. rewrite Hchat, Hmsg, Hvoice, Hsmall.
    unfold bind at 1. unfold getFile, call at 1.
    cbn [trace unhandled app]. rewrite Hfile. reflexivity.
  - destruct (w_fileUrl w [EvFindChat (ctx_chat_id ctx); EvGetFile (file_id v);
                           EvFileUrl (file_path fileData)])
      as [err|url] eqn:Hurl.
    + eexists.
      unfold run, handleMessage, try_catch.
      unfold bind at 1. unfold findChat, call at 1, initial.
      cbn [trace unhandled app]. rewrite Hchat, Hmsg, Hvoice, Hsmall.
      unfold bind at 1. unfold getFile, call at 1.
      cbn [trace unhandled app]. rewrite Hfile.
      unfold bind at 1. unfold fileUrl, call at 1.
      cbn [trace unhandled app]. rewrite Hurl. reflexivity.
    + rewrite (handleMessage_dispatch w ctx chat message v fileData url
                 Hchat Hmsg Hvoice Hsmall Hfile Hurl).
      assert (H : EmitsAt (fun _ => true)
                    (if silent chat
                     then try_catch (sendAction ctx url chat (file_id v))
                            (fun err => report ctx err (str "sendAction"))
                     else try_catch
                            (sendTranscription ctx url chat (file_id v))
                            (fun err =>
                               report ctx err (str "sendTranscription")))
                    w {| trace := [EvFindChat (ctx_chat_id ctx);
                                   EvGetFile (file_id v);
                                   EvFileUrl (file_path fileData)];
                         unhandled := [] |}).
      { destruct (silent chat); apply emits_try_catch;
          try (intros e; apply emits_report; reflexivity).
        - eapply emits_weaken; [|apply emits_sendAction]. reflexivity.
        - eapply emits_weaken; [|apply emits_sendTranscription]. reflexivity. }
      destruct H as (new & E & _). rewrite E. cbn [trace app].
      eexists. reflexivity.
Qed.

(** * The further theorems at concrete requests *)

(** A transcript delivered in both modes by a platform that accepts
    everything. *)
Lemma delivery_succeeds_witness :
  snd (updateMessagewithTranscription (Sample.ctx Sample.plain_id None)
         Runs.sent (formatText (Runs.wit_chat false true) Runs.hello)
         (Runs.wit_chat false true)
         (Sample.world (Runs.wit_chat false true) Runs.hello Runs.sent false)
         initial) = inr tt
  /\ snd (sendMessageWithTranscription (Sample.ctx Sample.plain_id None)
            (formatText (Runs.wit_chat false true) Runs.hello)
            (Runs.wit_chat false true)
            (Sample.world (Runs.wit_chat false true) Runs.hello Runs.sent false)
            initial) = inr tt.
Proof.
  exact (delivery_succeeds_when_platform_accepts
           (Sample.world (Runs.wit_chat false true) Runs.hello Runs.sent false)
           (Sample.ctx Sample.plain_id None) Runs.sent
           (Sample.voice_message Sample.plain_id None)
           (Runs.wit_chat false true) Runs.hello initial
           (fun _ => eq_refl)
           (fun _ => ex_intro _ Runs.sent eq_refl)
           (fun _ => ex_intro _ Runs.sent eq_refl)
           eq_refl).
Defined.

(** 4500 letters shown in an exempt interactive chat. *)
Lemma interactive_delivery_witness :
  let w := Sample.world (Runs.wit_chat false false) [] Runs.sent false in
  let ctx := Sample.ctx Sample.exempt_id None in
  exists first rest,
    trace (fst (updateMessagewithTranscription ctx Runs.sent
                  (Sample.letters 4500) (Runs.wit_chat false false) w initial))
    = trace initial
      ++ EvEditMessageText (msg_chat_id Runs.sent) (message_id Runs.sent) first
           {| parse_mode := Some (str "Markdown");
              disable_web_page_preview := Some true;
              reply_to_message_id := None |}
         :: map (fun chunk =>
                   EvReply chunk
                     {| parse_mode := Some (str "Markdown");
                        disable_web_page_preview := Some true;
                        reply_to_message_id := Some (message_id Runs.sent) |})
                rest
    /\ first ++ concat rest = Sample.letters 4500.
Proof.
  intros w ctx.
  destruct (interactive_delivery_shows_display_text w ctx Runs.sent
              (Sample.letters 4500) (Runs.wit_chat false false) initial
              (fst (updateMessagewithTranscription ctx Runs.sent
                      (Sample.letters 4500) (Runs.wit_chat false false)
                      w initial))
              ltac:(vm_compute; discriminate)
              ltac:(vm_compute; reflexivity))
    as (first & rest & Ht & Hc & _).
  exists first, rest. split; [exact Ht | exact Hc].
Defined.

(** 4500 letters sent to an exempt silent chat. *)
Lemma silent_delivery_witness :
  let w := Sample.world (Runs.wit_chat true false) [] Runs.sent false in
  let ctx := Sample.ctx Sample.exempt_id None in
  exists first rest,
    first ++ concat rest
    = filter (fun c => negb (isLineTerminator c)) (Sample.letters 4500)
    /\ Forall (fun chunk => 1 <= length chunk <= 4000) (first :: rest).
Proof.
  intros w ctx.
  destruct (silent_delivery_threads_on_first_piece w ctx
              (Sample.voice_message Sample.exempt_id None)
              (Sample.letters 4500) (Runs.wit_chat true false) initial
              (fst (sendMessageWithTranscription ctx (Sample.letters 4500)
                      (Runs.wit_chat true false) w initial))
              ltac:(vm_compute; discriminate)
              eq_refl
              ltac:(vm_compute; reflexivity))
    as (first & rest & sent & _ & _ & Hc & Hb).
  exists first, rest. split; [exact Hc | exact Hb].
Defined.

(** The engine times out in an interactive chat. *)
Lemma interactive_engine_failure_witness :
  snd (run (Runs.engine_down (Runs.wit_chat false false))
           (sendTranscription (Sample.ctx Sample.plain_id None) Runs.url
              (Runs.wit_chat false false) Runs.fileId)) = inr tt
  /\ In (EvReport Runs.timed_out (str "sendTranscription"))
        (trace (fst (run (Runs.engine_down (Runs.wit_chat false false))
                         (sendTranscription (Sample.ctx Sample.plain_id None)
                            Runs.url (Runs.wit_chat false false)
                            Runs.fileId)))).
Proof.
  pose proof (interactive_engine_failure
                (Runs.engine_down (Runs.wit_chat false false))
                (Sample.ctx Sample.plain_id None) Runs.url
                (Runs.wit_chat false false) Runs.fileId
                (Sample.voice_message Sample.plain_id None) Runs.sent
                Runs.timed_out eq_refl eq_refl eq_refl eq_refl) as H.
  cbv zeta in H. rewrite H. split; [reflexivity|].
  cbn [fst trace]. apply in_or_app. right. apply in_or_app. right.
  left. reflexivity.
Defined.

(** The platform rejects the edit of the placeholder. *)
Lemma interactive_delivery_failure_witness :
  exists log,
    run (Sample.world_edit_fails (Runs.wit_chat false false) Runs.hello
           Runs.sent false)
        (sendTranscription (Sample.ctx Sample.plain_id None) Runs.url
           (Runs.wit_chat false false) Runs.fileId)
    = ({| trace := log; unhandled := [] |}, inr tt)
    /\ filter is_record log = [].
Proof.
  eexists. split.
  - refine (interactive_delivery_failure
              (Sample.world_edit_fails (Runs.wit_chat false false) Runs.hello
                 Runs.sent false)
              (Sample.ctx Sample.plain_id None) Runs.url
              (Runs.wit_chat false false) Runs.fileId
              (Sample.voice_message Sample.plain_id None) Runs.sent
              Runs.hello_answer
              (Failure (Some (str "Bad Request: message to edit not found")))
              {| trace := _; unhandled := [] |}
              eq_refl eq_refl eq_refl eq_refl _).
    vm_compute; reflexivity.
  - vm_compute; reflexivity.
Defined.

(** The database refuses the record after the transcript was shown. *)
Lemma interactive_persistence_failure_witness :
  exists log,
    run (Runs.store_down (Runs.wit_chat false false))
        (sendTranscription (Sample.ctx Sample.plain_id None) Runs.url
           (Runs.wit_chat false false) Runs.fileId)
    = ({| trace := log; unhandled := [] |}, inr tt).
Proof.
  eexists.
  refine (interactive_persistence_failure
            (Runs.store_down (Runs.wit_chat false false))
            (Sample.ctx Sample.plain_id None) Runs.url
            (Runs.wit_chat false false) Runs.fileId
            (Sample.voice_message Sample.plain_id None) Runs.sent
            Runs.hello_answer Runs.timed_out
            {| trace := _; unhandled := [] |}
            eq_refl eq_refl eq_refl eq_refl _ eq_refl).
  vm_compute; reflexivity.
Defined.

(** The engine times out in a silent chat. *)
Lemma silent_failure_witness :
  run (Runs.engine_down (Runs.wit_chat true false))
      (sendAction (Sample.ctx Sample.plain_id None) Runs.url
         (Runs.wit_chat true false) Runs.fileId)
  = ({| trace :=
          [ EvReplyWithChatAction (str "typing");
            EvUrlToText Runs.url (sanitizeChat (Runs.wit_chat true false));
            EvReport Runs.timed_out (str "sendTranscription.silent");
            EvConsoleInfo ];
        unhandled := [] |}, inr tt).
Proof.
  exact (proj1 (silent_failure_is_only_reported
                  (Runs.engine_down (Runs.wit_chat true false))
                  (Sample.ctx Sample.plain_id None) Runs.url
                  (Runs.wit_chat true false) Runs.fileId Runs.timed_out
                  eq_refl eq_refl) eq_refl).
Defined.

(** Neither the placeholder nor the typing action gets through. *)
Lemma first_feedback_witness :
  run (Runs.feedback_down (Runs.wit_chat false false))
      (sendTranscription (Sample.ctx Sample.plain_id None) Runs.url
         (Runs.wit_chat false false) Runs.fileId)
  = ({| trace := [placeholder_event (Sample.ctx Sample.plain_id None)
                    (Sample.voice_message Sample.plain_id None)];
        unhandled := [] |}, inl Runs.timed_out)
  /\ run (Runs.feedback_down (Runs.wit_chat true false))
         (sendAction (Sample.ctx Sample.plain_id None) Runs.url
            (Runs.wit_chat true false) Runs.fileId)
     = ({| trace := [EvReplyWithChatAction (str "typing")];
           unhandled := [] |}, inl Runs.timed_out).
Proof.
  split.
  - exact (proj1 (first_feedback_failure_stops_the_mode
                    (Runs.feedback_down (Runs.wit_chat false false))
                    (Sample.ctx Sample.plain_id None) Runs.url
                    (Runs.wit_chat false false) Runs.fileId
                    (Sample.voice_message Sample.plain_id None)
                    Runs.timed_out eq_refl) eq_refl).
  - exact (proj2 (first_feedback_failure_stops_the_mode
                    (Runs.feedback_down (Runs.wit_chat true false))
                    (Sample.ctx Sample.plain_id None) Runs.url
                    (Runs.wit_chat true false) Runs.fileId
                    (Sample.voice_message Sample.plain_id None)
                    Runs.timed_out eq_refl) eq_refl).
Defined.

(** A request to a silent chat: nothing in its log is a notice or an edit. *)
Lemma mode_witness :
  Forall (fun e => silent_mode_call e = true)
    (trace (fst (run (Sample.world (Runs.wit_chat true false) Runs.hello
                        Runs.sent false)
                     (handleMessage (Sample.ctx Sample.plain_id None))))).
Proof.
  exact (mode_decides_the_calls
           (Sample.world (Runs.wit_chat true false) Runs.hello Runs.sent false)
           (Sample.ctx Sample.plain_id None) (Runs.wit_chat true false)
           eq_refl).
Defined.

(** Ten letters in a chat that gets the promo. *)
Lemma promo_cost_witness :
  length (addPromo (fun _ => false) (Sample.ctx Sample.plain_id None)
            (Runs.wit_chat false false) (Sample.letters 10)) = 10 + 55.
Proof.
  exact (proj1 (promo_costs_55_characters
                  (Sample.world (Runs.wit_chat false false) [] Runs.sent false)
                  (Sample.ctx Sample.plain_id None) Runs.sent
                  (Runs.wit_chat false false) (Sample.letters 10) initial
                  (fst (updateMessagewithTranscription
                          (Sample.ctx Sample.plain_id None) Runs.sent
                          (Sample.letters 10) (Runs.wit_chat false false)
                          (Sample.world (Runs.wit_chat false false) []
                             Runs.sent false) initial))
                  ltac:(vm_compute; discriminate) eq_refl eq_refl)).
Defined.

(** A voice message of unknown size. *)
Lemma smaller_attachment_witness :
  exists rest,
    trace (fst (run (Sample.world (Runs.wit_chat true false) Runs.hello
                       Runs.sent false)
                    (handleMessage (Sample.ctx Sample.plain_id None))))
    = EvFindChat Sample.plain_id :: EvGetFile Runs.fileId :: rest.
Proof.
  exact (smaller_attachment_passes_the_gate
           (Sample.world (Runs.wit_chat true false) Runs.hello Runs.sent false)
           (Sample.ctx Sample.plain_id None) (Runs.wit_chat true false)
           (Sample.voice_message Sample.plain_id None)
           {| file_id := Runs.fileId; file_size := None |}
           eq_refl eq_refl eq_refl (or_introl eq_refl)).
Defined.
